(** * app.py: conversation memory, usage ledger and the /chat turn

    A shallow embedding of [src/app.py], the Flask backend of the GPT-4
    voice/text agent, and the properties of its stateful core.

    How the program's world is represented:
    - Python [int] is [Z]; Python [float] is IEEE-754 binary64, computed
      with the reference operations of [SpecFloat] at precision 53.
    - The SQLite file is a record of its two tables.  A table is the list
      of its rows, in no particular physical order, together with the
      AUTOINCREMENT counter SQLite keeps in [sqlite_sequence].  An
      SQLite INTEGER is a signed 64-bit integer: a Python [int] outside
      that range is refused when it is bound to a statement
      ([OverflowError]), and a [SUM] that leaves the range fails
      ("integer overflow").  Only the id counter is left a mathematical
      integer: a table of [2 ^ 63] rows is out of reach.  The
      [timestamp] columns are filled by SQLite and never read by the
      program; they are left out.
    - Each function of app.py that talks to SQLite opens a connection,
      runs one statement and commits.  SQLite makes that atomic: either
      the statement takes effect or an exception is raised and the file
      is unchanged.  Whether SQLite itself fails is the environment's
      choice, read from a script in the world ([faults]).
    - The OpenAI endpoint is a function from the request to its outcome.
    - Everything the program does to the outside (statements sent to
      SQLite, requests sent to OpenAI, lines printed) is appended to a
      trace, so that "no call was made" can be stated. *)

From Stdlib Require Import ZArith SpecFloat.
From stdpp Require Import base list sorting strings gmap.

Local Open Scope Z_scope.

(** ** Python values *)

Module Py.

(** [float]: binary64. *)
Definition float : Type := spec_float.
Definition prec : Z := 53.
Definition emax : Z := 1024.

Definition fadd : float → float → float := SFadd prec emax.
Definition fmul : float → float → float := SFmul prec emax.
Definition fdiv : float → float → float := SFdiv prec emax.

(** The float nearest to the integer [z] (ties to even); overflows to an
    infinity, which [float_of_int] below turns into Python's exception. *)
Definition nearest_float (z : Z) : float := binary_normalize prec emax z 0 false.

(** A decimal literal [n / d] with [n] and [d] exactly representable
    denotes the correctly rounded quotient. *)
Definition literal (n d : Z) : float := fdiv (nearest_float n) (nearest_float d).

Definition is_zero (f : float) : bool :=
  match f with S754_zero _ => true | _ => false end.

(** The values that flow through the usage summary: SQL NULL arrives as
    [None], INTEGER as [int], REAL as [float]. *)
Inductive value :=
| PyNone
| PyInt (z : Z)
| PyFloat (f : float).

(** Truth value testing, as used by [x if x else 0]. *)
Definition truthy (v : value) : bool :=
  match v with
  | PyNone => false
  | PyInt z => negb (z =? 0)
  | PyFloat f => negb (is_zero f)
  end.

(** Exceptions: the class that was raised and [str(e)].  Every class
    below derives from [Exception]. *)
Inductive exn_class :=
| sqlite3_Error
| openai_Error
| OverflowError
| TypeError.

Record exn := Exn { exn_type : exn_class; exn_str : string }.

(** [round_half_even n d]: the integer nearest to [n / d] for [d > 0],
    ties to the even one. *)
Definition round_half_even (n d : Z) : Z :=
  let q := n / d in
  let r := n mod d in
  match 2 * r ?= d with
  | Lt => q
  | Gt => q + 1
  | Eq => if Z.even q then q else q + 1
  end.

(** [round(x, ndigits)] on a float, for [ndigits >= 0]: CPython prints
    the exact value of [x] correctly rounded to [ndigits] decimals
    (ties of the exact value to even) and reads the result back as the
    nearest float.  Zeros, infinities and NaN round to themselves, and
    the sign of [x] is kept when the result is zero. *)
Definition float_round (x : float) (ndigits : nat) : float :=
  match x with
  | S754_finite s m e =>
      let p := 10 ^ Z.of_nat ndigits in
      let q := if 0 <=? e
               then Z.pos m * 2 ^ e * p
               else round_half_even (Z.pos m * p) (2 ^ (- e)) in
      match q with
      | Z.pos q' => fdiv (S754_finite s q' 0) (nearest_float p)
      | _ => S754_zero s
      end
  | _ => x
  end.

End Py.

Export Py.

(** ** The SQLite file [database.db] *)

Module Sqlite.

(** A row of [messages (id, role, content, timestamp)]. *)
Record message_row := MessageRow {
  msg_id : Z;
  msg_role : string;
  msg_content : string
}.

(** A row of [usage (id, model, prompt_tokens, completion_tokens,
    total_tokens, cost, timestamp)]. *)
Record usage_row := UsageRow {
  use_id : Z;
  use_model : string;
  use_prompt_tokens : Z;
  use_completion_tokens : Z;
  use_total_tokens : Z;
  use_cost : float
}.

(** A table with an [INTEGER PRIMARY KEY AUTOINCREMENT] column: its rows,
    and the largest id handed out so far ([sqlite_sequence.seq]). *)
Record table (R : Type) := Table {
  rows : list R;
  seq : Z
}.
Arguments Table {R} _ _.
Arguments rows {R} _.
Arguments seq {R} _.

Record database := Database {
  messages_table : table message_row;
  usage_table : table usage_row
}.

(** The storage class INTEGER: a signed 64-bit integer. *)
Definition fits_int64 (z : Z) : bool := (- 2 ^ 63 <=? z) && (z <? 2 ^ 63).

(** What SQLite answers to a statement it runs: the result, or the
    message of the error it reports. *)
Inductive answer (A : Type) :=
| Done (a : A)
| Failed (detail : string).
Arguments Done {A} _.
Arguments Failed {A} _.

(** [INSERT] without an explicit id: the row gets the id after the
    largest one ever used. *)
Definition insert {R} (mk : Z → R) (t : table R) : table R :=
  let id := seq t + 1 in
  Table (rows t ++ [mk id]) id.

(** [ORDER BY id DESC]. *)
Definition newer_first (a b : message_row) : Prop := msg_id b ≤ msg_id a.

#[global] Instance newer_first_dec a b : Decision (newer_first a b).
Proof. unfold newer_first. apply _. Defined.

Definition order_by_id_desc (l : list message_row) : list message_row :=
  merge_sort newer_first l.

(** [LIMIT n], for [n] an INTEGER: at most [n] rows; a negative [n]
    means no limit.  (An [n] that is no INTEGER does not get here: it
    is refused when it is bound, see [sqlite3_execute].) *)
Definition limit {A} (n : Z) (l : list A) : list A :=
  if n <? 0 then l else take (Z.to_nat n) l.

(** [SELECT role, content FROM messages ORDER BY id DESC LIMIT ?]. *)
Definition select_recent (n : Z) (d : database) : list (string * string) :=
  (λ r, (msg_role r, msg_content r)) <$> limit n (order_by_id_desc (rows (messages_table d))).

(** A scan of [usage] visits the rows by increasing id, the rowid. *)
Definition by_rowid (a b : usage_row) : Prop := use_id a ≤ use_id b.

#[global] Instance by_rowid_dec a b : Decision (by_rowid a b).
Proof. unfold by_rowid. apply _. Defined.

Definition table_scan (l : list usage_row) : list usage_row :=
  merge_sort by_rowid l.

(** The running sum of an INTEGER column, row after row: a 64-bit
    integer, lost as soon as one addition leaves the range. *)
Fixpoint running_sum (acc : Z) (l : list Z) : option Z :=
  match l with
  | [] => Some acc
  | x :: l => if fits_int64 (acc + x) then running_sum (acc + x) l else None
  end.

(** [SUM(column)] over the values met by the scan, in that order: NULL
    over no rows; for an INTEGER column the running sum, or the error
    "integer overflow"; for a REAL column the floats added one after
    the other from [0.0] (SQLite before 3.44, which has no compensated
    summation). *)
Definition sum_integer (l : list Z) : answer value :=
  match l with
  | [] => Done PyNone
  | _ => match running_sum 0 l with
         | Some s => Done (PyInt s)
         | None => Failed "integer overflow"
         end
  end.

Definition sum_real (l : list float) : value :=
  match l with
  | [] => PyNone
  | _ => PyFloat (foldl fadd (S754_zero false) l)
  end.

(** [SELECT SUM(prompt_tokens), SUM(completion_tokens), SUM(cost) FROM usage]. *)
Definition select_sums (d : database) : answer (value * value * value) :=
  let us := table_scan (rows (usage_table d)) in
  match sum_integer (use_prompt_tokens <$> us),
        sum_integer (use_completion_tokens <$> us) with
  | Done total_prompt, Done total_completion =>
      Done (total_prompt, total_completion, sum_real (use_cost <$> us))
  | _, _ => Failed "integer overflow"
  end.

(** The two [CREATE TABLE IF NOT EXISTS] of [init_db]: a new file gets
    two empty tables, an existing one is left as it is. *)
Definition init_db (file : option database) : database :=
  match file with
  | Some d => d
  | None => Database (Table [] 0) (Table [] 0)
  end.

End Sqlite.

Export Sqlite.

(** ** The world and the computations on it *)

(** A conversation message as sent to OpenAI:
    [{'role': ..., 'content': ...}]. *)
Record message := Message { role : string; content : string }.

(** What the program needs of a ChatCompletion response:
    [response['choices'][0]['message']['content']] and the two counters
    of [response['usage']]. *)
Record completion := Completion {
  reply_content : string;
  usage_prompt_tokens : Z;
  usage_completion_tokens : Z
}.

Inductive event :=
| SqlInsertMessage (role content : string)
| SqlSelectMessages (limit : Z)
| SqlInsertUsage (model : string) (prompt_tokens completion_tokens total_tokens : Z) (cost : float)
| SqlSelectUsage
| ApiRequest (model : string) (messages : list message)
| Print (line : string)
| PrintTraceback (e : exn).

(** [faults] scripts the coming SQLite statements: [None] lets the
    statement through, [Some detail] makes it raise; past the end of
    the script every statement goes through. *)
Record world := World {
  db : database;
  faults : list (option string);
  trace : list event
}.

Inductive result (A : Type) :=
| Ok (a : A)
| Raise (e : exn).
Arguments Ok {A} _.
Arguments Raise {A} _.

Definition M (A : Type) : Type := world → result A * world.

Definition ret {A} (a : A) : M A := λ w, (Ok a, w).

Definition raise {A} (e : exn) : M A := λ w, (Raise e, w).

Definition bind {A B} (c : M A) (k : A → M B) : M B :=
  λ w, match c w with
       | (Ok a, w') => k a w'
       | (Raise e, w') => (Raise e, w')
       end.

Declare Scope py_scope.
Delimit Scope py_scope with py.
Notation "x <- c1 ;; c2" := (bind c1 (λ x, c2))
  (at level 100, c1 at next level, right associativity) : py_scope.
Notation "c1 ;; c2" := (bind c1 (λ _, c2))
  (at level 100, right associativity) : py_scope.
Local Open Scope py_scope.

(** [try: body except Exception as e: handler]: what [body] did before
    it raised stays done. *)
Definition try_except {A} (body : M A) (handler : exn → M A) : M A :=
  λ w, match body w with
       | (Ok a, w') => (Ok a, w')
       | (Raise e, w') => handler e w'
       end.

Definition emit (ev : event) : M unit :=
  λ w, (Ok (), World (db w) (faults w) (trace w ++ [ev])).

(** [connect; execute stmt; commit; close] as one step.  [integers]
    are the Python ints among the parameters of the statement, [run]
    is what SQLite does with it.  The call consumes one entry of the
    script.  [Some detail]: SQLite fails, opening the file or preparing
    or running the statement, with that error.  Otherwise the
    parameters are bound, which raises [OverflowError] for an int that
    is no INTEGER, and the statement is run.  When an exception is
    raised nothing was committed and the file is as it was. *)
Definition sqlite3_execute {A} (stmt : event) (integers : list Z)
    (run : database → answer A * database) : M A :=
  emit stmt ;;
  λ w, match faults w with
       | Some detail :: rest =>
           (Raise (Exn sqlite3_Error detail), World (db w) rest (trace w))
       | outcome =>
           if forallb fits_int64 integers
           then match run (db w) with
                | (Done a, d) => (Ok a, World d (tail outcome) (trace w))
                | (Failed detail, _) =>
                    (Raise (Exn sqlite3_Error detail),
                     World (db w) (tail outcome) (trace w))
                end
           else (Raise (Exn OverflowError
                            "Python int too large to convert to SQLite INTEGER"),
                 World (db w) (tail outcome) (trace w))
       end.

Definition print (line : string) : M unit := emit (Print line).

(** ** app.py *)

(** GPT-4 usage cost constants: $0.03 per 1K prompt tokens, $0.06 per 1K
    completion tokens. *)
Definition GPT4_PROMPT_COST_PER_1K : float := literal 3 100.
Definition GPT4_COMPLETION_COST_PER_1K : float := literal 6 100.

(** Conversion of an [int] operand to [float]. *)
Definition float_of_int (z : Z) : M float :=
  match nearest_float z with
  | S754_infinity _ => raise (Exn OverflowError "int too large to convert to float")
  | f => ret f
  end.

(** [i / f] for an [int] [i] and a [float] [f]; at both call sites [f]
    is the literal [1000.0], so there is no division by zero. *)
Definition truediv (i : Z) (f : float) : M float :=
  a <- float_of_int i ;;
  ret (fdiv a f).

(** [round(v, ndigits)]: an [int] is returned as it is when
    [ndigits >= 0]. *)
Definition round (v : value) (ndigits : nat) : M value :=
  match v with
  | PyInt z => ret (PyInt z)
  | PyFloat f => ret (PyFloat (float_round f ndigits))
  | PyNone => raise (Exn TypeError "type NoneType doesn't define __round__ method")
  end.

Definition get_conversation_messages (limit : Z) : M (list message) :=
  rows <- sqlite3_execute (SqlSelectMessages limit) [limit]
            (λ d, (Done (select_recent limit d), d)) ;;
  let rows := reverse rows in
  let messages := foldl (λ messages row, messages ++ [Message row.1 row.2]) [] rows in
  ret messages.

Definition add_message_to_db (role content : string) : M unit :=
  sqlite3_execute (SqlInsertMessage role content) []
    (λ d, (Done (), Database (insert (λ id, MessageRow id role content) (messages_table d))
                             (usage_table d))).

Definition record_usage (model : string) (prompt_tokens completion_tokens : Z) : M unit :=
  let total_tokens := prompt_tokens + completion_tokens in
  p <- truediv prompt_tokens (literal 1000 1) ;;
  c <- truediv completion_tokens (literal 1000 1) ;;
  let cost := fadd (fmul p GPT4_PROMPT_COST_PER_1K) (fmul c GPT4_COMPLETION_COST_PER_1K) in
  sqlite3_execute (SqlInsertUsage model prompt_tokens completion_tokens total_tokens cost)
    [prompt_tokens; completion_tokens; total_tokens]
    (λ d, (Done (), Database (messages_table d)
                             (insert (λ id, UsageRow id model prompt_tokens completion_tokens
                                                     total_tokens cost)
                                     (usage_table d)))).

Record usage_summary := UsageSummary {
  total_prompt_tokens : value;
  total_completion_tokens : value;
  total_cost : value
}.

Definition get_usage_summary : M usage_summary :=
  row <- sqlite3_execute SqlSelectUsage [] (λ d, (select_sums d, d)) ;;
  let '(row0, row1, row2) := row in
  let total_prompt := if truthy row0 then row0 else PyInt 0 in
  let total_completion := if truthy row1 then row1 else PyInt 0 in
  let total_cost := if truthy row2 then row2 else PyInt 0 in
  rounded <- round total_cost 5 ;;
  ret (UsageSummary total_prompt total_completion rounded).

Section App.

(** [openai.ChatCompletion.create]: what the service answers to a
    request, or the exception the client raises. *)
Variable ChatCompletion_create : string → list message → result completion.

Definition openai_ChatCompletion_create (model : string) (messages : list message)
  : M completion :=
  emit (ApiRequest model messages) ;;
  λ w, (ChatCompletion_create model messages, w).

Definition generate_chat_completion (messages : list message) : M string :=
  try_except
    (response <- openai_ChatCompletion_create "gpt-4" messages ;;
     let assistant_message := reply_content response in
     record_usage "gpt-4" (usage_prompt_tokens response) (usage_completion_tokens response) ;;
     ret assistant_message)
    (λ e,
     print ("Error generating chat completion: " +:+ exn_str e) ;;
     emit (PrintTraceback e) ;;
     ret ("Error: " +:+ exn_str e)).

(** [POST /chat]: [data] is the JSON object of the request,
    [{ user_input: string }]; the result is the object handed to
    [jsonify]. *)
Definition chat (data : gmap string string) : M (gmap string string) :=
  let user_input := default "" (data !! "user_input") in
  add_message_to_db "user" user_input ;;
  conversation_history <- get_conversation_messages 10 ;;
  assistant_reply <- generate_chat_completion conversation_history ;;
  add_message_to_db "assistant" assistant_reply ;;
  ret {[ "response" := assistant_reply ]}.

(** [GET /usage]. *)
Definition usage : M usage_summary := get_usage_summary.

End App.

(** ** Vocabulary of the properties *)

(** The next [k] SQLite statements go through. *)
Definition healthy (k : nat) (w : world) : Prop :=
  Forall (λ outcome, outcome = None) (take k (faults w)).

(** A new database file after [init_db], with a fault script and an
    empty trace. *)
Definition fresh (script : list (option string)) : world :=
  World (init_db None) script [].

(** What the primary key and AUTOINCREMENT guarantee of a table: no id
    occurs twice, and none is larger than the counter. *)
Definition unique_ids (l : list message_row) : Prop := NoDup (msg_id <$> l).

Definition table_ok (t : table message_row) : Prop :=
  unique_ids (rows t) ∧ Forall (λ r, msg_id r ≤ seq t) (rows t).

Definition older (a b : message_row) : Prop := msg_id a < msg_id b.

(** A table whose rows lie in the order they were inserted in, which is
    what [INSERT] alone produces from an empty table. *)
Definition chronological (t : table message_row) : Prop :=
  StronglySorted older (rows t) ∧ Forall (λ r, msg_id r ≤ seq t) (rows t).

(** The dict [get_conversation_messages] builds from a row. *)
Definition dict_of_row (r : message_row) : message :=
  Message (msg_role r) (msg_content r).

Definition dict_of_pair (m : string * string) : message := Message m.1 m.2.

(** The file after a successful [INSERT INTO messages]. *)
Definition add_row (role content : string) (d : database) : database :=
  Database (insert (λ id, MessageRow id role content) (messages_table d)) (usage_table d).

(** The file after a run of successful inserts into [messages]. *)
Definition add_rows (ms : list (string * string)) (d : database) : database :=
  foldl (λ d m, add_row m.1 m.2 d) d ms.

(** The rows a [LIMIT n] window reads, oldest first. *)
Definition window_rows (n : Z) (d : database) : list message_row :=
  reverse (limit n (order_by_id_desc (rows (messages_table d)))).

(** A sequence of [add_message_to_db(role, content)] calls. *)
Definition appends (ms : list (string * string)) : M unit :=
  foldr (λ m rest, add_message_to_db m.1 m.2 ;; rest) (ret ()) ms.

(** The rates the program is configured with: those of GPT-4, the one
    model it calls. *)
Definition rate_table : gmap string (float * float) :=
  {[ "gpt-4" := (GPT4_PROMPT_COST_PER_1K, GPT4_COMPLETION_COST_PER_1K) ]}.

(** [p/1000 * prompt_rate + c/1000 * completion_rate] in float
    arithmetic. *)
Definition cost_at (prompt_rate completion_rate : float) (p c : Z) : float :=
  fadd (fmul (fdiv (nearest_float p) (literal 1000 1)) prompt_rate)
       (fmul (fdiv (nearest_float c) (literal 1000 1)) completion_rate).

(** The ints Python converts to [float] without [OverflowError]. *)
Definition fits_float (z : Z) : bool :=
  match nearest_float z with
  | S754_infinity _ => false
  | _ => true
  end.

(** The file after a successful [INSERT INTO usage] of [record_usage]. *)
Definition add_usage_row (model : string) (p c : Z) (d : database) : database :=
  Database (messages_table d)
           (insert (λ id, UsageRow id model p c (p + c)
                                   (cost_at GPT4_PROMPT_COST_PER_1K GPT4_COMPLETION_COST_PER_1K p c))
                   (usage_table d)).

(** A computation that keeps a property of the file, however it ends. *)
Definition preserves {A} (P : database → Prop) (c : M A) : Prop :=
  ∀ w, P (db w) → P (db (c w).2).

(** What [get_usage_summary] returns for a file when SQLite answers. *)
Definition summary_of (d : database) : result usage_summary :=
  (get_usage_summary (World d [] [])).1.

Definition totals_add_up (u : usage_row) : Prop :=
  use_total_tokens u = use_prompt_tokens u + use_completion_tokens u.

(** One step of the running program: a request served by one of the two
    routes, a direct call of one of the store functions, or the
    environment changing what SQLite will do next. *)
Inductive step : world → world → Prop :=
| step_chat create data w : step w (chat create data w).2
| step_usage w : step w (usage w).2
| step_add_message role content w : step w (add_message_to_db role content w).2
| step_get_messages n w : step w (get_conversation_messages n w).2
| step_record_usage model p c w : step w (record_usage model p c w).2
| step_environment script w : step w (World (db w) script (trace w)).

(** The worlds the program can be in, starting from a new file. *)
Inductive reachable : world → Prop :=
| reachable_fresh script : reachable (fresh script)
| reachable_step w w' : reachable w → step w w' → reachable w'.

(** *** Vocabulary of the further properties *)

(** The requests sent to OpenAI, read off a trace: the model and the
    messages of each one. *)
Definition api_requests (t : list event) : list (string * list message) :=
  omap (λ ev, match ev with
              | ApiRequest model messages => Some (model, messages)
              | _ => None
              end) t.

(** The sum of an INTEGER column, as a mathematical integer. *)
Definition column_total (column : usage_row → Z) (d : database) : Z :=
  foldl Z.add 0 (column <$> rows (usage_table d)).

(** The sum of the REAL column [cost], as [SUM] accumulates it. *)
Definition cost_total (d : database) : float :=
  foldl fadd (S754_zero false) (use_cost <$> table_scan (rows (usage_table d))).

(** A file that holds everything an earlier one held, in the same
    places. *)
Definition extends (d d' : database) : Prop :=
  rows (messages_table d) `prefix_of` rows (messages_table d') ∧
  rows (usage_table d) `prefix_of` rows (usage_table d') ∧
  seq (messages_table d) ≤ seq (messages_table d') ∧
  seq (usage_table d) ≤ seq (usage_table d').

(** Ids handed out one after the other from 1, none missing. *)
Definition consecutive_ids (d : database) : Prop :=
  msg_id <$> rows (messages_table d) = seqZ 1 (seq (messages_table d)) ∧
  0 ≤ seq (messages_table d) ∧
  use_id <$> rows (usage_table d) = seqZ 1 (seq (usage_table d)) ∧
  0 ≤ seq (usage_table d).

(** A float that is neither negative nor NaN: [+0.0], a positive
    finite number or [+inf]. *)
Definition nonnegative (f : float) : bool :=
  match f with
  | S754_zero s | S754_infinity s | S754_finite s _ _ => negb s
  | S754_nan => false
  end.

(** ** Running computations *)

Lemma bind_ok {A B} (c : M A) (k : A → M B) w a w' :
  c w = (Ok a, w') → bind c k w = k a w'.
Proof. unfold bind. by intros ->. Qed.

Lemma bind_raise {A B} (c : M A) (k : A → M B) w e w' :
  c w = (Raise e, w') → bind c k w = (Raise e, w').
Proof. unfold bind. by intros ->. Qed.

Lemma healthy_S k w :
  healthy (S k) w →
  (∀ detail rest, faults w ≠ Some detail :: rest) ∧
  ∀ d t, healthy k (World d (tail (faults w)) t).
Proof.
  unfold healthy. destruct w as [d fs t]; simpl.
  destruct fs as [|o fs]; simpl.
  - intros _. split; [done|]. intros. by rewrite take_nil.
  - intros [-> H]%Forall_cons. split; [by intros ?? [=]|done].
Qed.

Lemma healthy_le k k' w : (k ≤ k')%nat → healthy k' w → healthy k w.
Proof.
  unfold healthy. intros Hle H.
  rewrite <-(Nat.min_l k k') by done. rewrite <-take_take.
  by apply Forall_take.
Qed.

Lemma fits_int64_spec z : fits_int64 z = true ↔ - 2 ^ 63 ≤ z < 2 ^ 63.
Proof. unfold fits_int64. rewrite andb_true_iff, Z.leb_le, Z.ltb_lt. done. Qed.

Lemma fits_int64_range z : - 2 ^ 63 ≤ z < 2 ^ 63 → fits_int64 z = true.
Proof. apply fits_int64_spec. Qed.

Lemma sqlite3_execute_ok {A} stmt integers (run : database → answer A * database) w a d :
  healthy 1 w → forallb fits_int64 integers = true → run (db w) = (Done a, d) →
  sqlite3_execute stmt integers run w =
    (Ok a, World d (tail (faults w)) (trace w ++ [stmt])).
Proof.
  intros [Hok _]%healthy_S Hint Hrun. unfold sqlite3_execute, bind, emit; simpl.
  rewrite Hint, Hrun.
  destruct (faults w) as [|[detail|] rest] eqn:E; simpl; [done| |done].
  by destruct (Hok detail rest).
Qed.

Lemma sqlite3_execute_fail {A} stmt integers (run : database → answer A * database)
    w detail rest :
  faults w = Some detail :: rest →
  sqlite3_execute stmt integers run w =
    (Raise (Exn sqlite3_Error detail), World (db w) rest (trace w ++ [stmt])).
Proof. intros E. unfold sqlite3_execute, bind, emit; simpl. by rewrite E. Qed.

Lemma sqlite3_execute_overflow {A} stmt integers (run : database → answer A * database) w :
  healthy 1 w → forallb fits_int64 integers = false →
  sqlite3_execute stmt integers run w =
    (Raise (Exn OverflowError "Python int too large to convert to SQLite INTEGER"),
     World (db w) (tail (faults w)) (trace w ++ [stmt])).
Proof.
  intros [Hok _]%healthy_S Hint. unfold sqlite3_execute, bind, emit; simpl.
  rewrite Hint.
  destruct (faults w) as [|[detail|] rest] eqn:E; simpl; [done| |done].
  by destruct (Hok detail rest).
Qed.

Lemma sqlite3_execute_refused {A} stmt integers (run : database → answer A * database)
    w detail d :
  healthy 1 w → forallb fits_int64 integers = true → run (db w) = (Failed detail, d) →
  sqlite3_execute stmt integers run w =
    (Raise (Exn sqlite3_Error detail), World (db w) (tail (faults w)) (trace w ++ [stmt])).
Proof.
  intros [Hok _]%healthy_S Hint Hrun. unfold sqlite3_execute, bind, emit; simpl.
  rewrite Hint, Hrun.
  destruct (faults w) as [|[d'|] rest] eqn:E; simpl; [done| |done].
  by destruct (Hok d' rest).
Qed.

(** Whatever happens, a statement changes the file only through [run],
    and a statement that raises does not change it. *)
Lemma sqlite3_execute_cases {A} stmt integers (run : database → answer A * database) w :
  (∃ e, (sqlite3_execute stmt integers run w).1 = Raise e ∧
        (exn_type e = sqlite3_Error ∨
         exn_type e = OverflowError ∧ forallb fits_int64 integers = false) ∧
        db (sqlite3_execute stmt integers run w).2 = db w) ∨
  (∃ a, run (db w) = (Done a, (run (db w)).2) ∧
        forallb fits_int64 integers = true ∧
        (sqlite3_execute stmt integers run w).1 = Ok a ∧
        db (sqlite3_execute stmt integers run w).2 = (run (db w)).2).
Proof.
  destruct (faults w) as [|[detail|] rest] eqn:E.
  2:{ left. rewrite (sqlite3_execute_fail _ _ _ _ _ _ E). eexists. split; [done|].
      split; [by left|done]. }
  all: assert (healthy 1 w) as H by (unfold healthy; rewrite E; repeat constructor).
  all: destruct (forallb fits_int64 integers) eqn:Hint.
  all: try (left; rewrite sqlite3_execute_overflow by done; eexists; split; [done|];
            split; [by right|done]).
  all: destruct (run (db w)) as [[a|detail] d] eqn:Hrun.
  all: try (right; rewrite (sqlite3_execute_ok _ _ _ _ _ _ H Hint Hrun); by exists a).
  all: left; rewrite (sqlite3_execute_refused _ _ _ _ _ _ H Hint Hrun); eexists;
    split; [done|]; split; [by left|done].
Qed.

(** ** The message store *)

Lemma add_message_to_db_ok role content w :
  healthy 1 w →
  add_message_to_db role content w =
    (Ok (), World (add_row role content (db w)) (tail (faults w))
                  (trace w ++ [SqlInsertMessage role content])).
Proof.
  intros H. unfold add_message_to_db. by erewrite sqlite3_execute_ok.
Qed.

Lemma add_message_to_db_fail role content w detail rest :
  faults w = Some detail :: rest →
  add_message_to_db role content w =
    (Raise (Exn sqlite3_Error detail),
     World (db w) rest (trace w ++ [SqlInsertMessage role content])).
Proof. intros H. unfold add_message_to_db. by rewrite (sqlite3_execute_fail _ _ _ _ _ _ H). Qed.

Lemma append_loop {A B} (f : A → B) (l : list A) (acc : list B) :
  foldl (λ messages row, messages ++ [f row]) acc l = acc ++ (f <$> l).
Proof.
  revert acc. induction l as [|x l IH]; intros acc; simpl.
  - by rewrite app_nil_r.
  - by rewrite IH, <-app_assoc.
Qed.

Lemma get_conversation_messages_ok n w :
  fits_int64 n = true → healthy 1 w →
  get_conversation_messages n w =
    (Ok (dict_of_row <$> window_rows n (db w)),
     World (db w) (tail (faults w)) (trace w ++ [SqlSelectMessages n])).
Proof.
  intros Hn H. unfold get_conversation_messages.
  assert (forallb fits_int64 [n] = true) as Hint by (simpl; by rewrite Hn).
  rewrite (bind_ok _ _ _ _ _
             (sqlite3_execute_ok _ _ (λ d, (Done (select_recent n d), d)) _ _ _
                                 H Hint eq_refl)); simpl.
  unfold ret. f_equal. f_equal.
  rewrite append_loop; simpl. unfold select_recent, window_rows.
  rewrite <-fmap_reverse, <-list_fmap_compose. done.
Qed.

(** *** [ORDER BY id DESC] *)

#[local] Instance newer_first_trans : Transitive newer_first.
Proof. unfold newer_first. intros a b c ??. lia. Qed.

#[local] Instance newer_first_total : Total newer_first.
Proof. unfold newer_first. intros a b. lia. Qed.

Lemma unique_ids_inj l a b :
  unique_ids l → a ∈ l → b ∈ l → msg_id a = msg_id b → a = b.
Proof.
  unfold unique_ids. induction l as [|x l IH]; simpl.
  - by intros _ ?%elem_of_nil.
  - intros [Hx Hl]%NoDup_cons [->|Ha]%elem_of_cons [->|Hb]%elem_of_cons E; auto.
    + destruct Hx. rewrite E. by apply list_elem_of_fmap_2.
    + destruct Hx. rewrite <-E. by apply list_elem_of_fmap_2.
Qed.

Lemma order_by_id_desc_perm l : order_by_id_desc l ≡ₚ l.
Proof. apply merge_sort_Permutation. Qed.

Lemma order_by_id_desc_sorted l : StronglySorted newer_first (order_by_id_desc l).
Proof. apply StronglySorted_merge_sort; apply _. Qed.

(** With a primary key there is one way to list the rows newest first. *)
Lemma order_by_id_desc_unique l l' :
  unique_ids l → l' ≡ₚ l → StronglySorted newer_first l' → order_by_id_desc l = l'.
Proof.
  intros Hl Hp Hs.
  apply (StronglySorted_unique_strong newer_first);
    [|apply order_by_id_desc_sorted|done|by rewrite order_by_id_desc_perm].
  intros a b Ha Hb Hab Hba. apply (unique_ids_inj l); [done|..].
  - by rewrite <-(order_by_id_desc_perm l).
  - by rewrite <-Hp.
  - unfold newer_first in *. lia.
Qed.

(** Newest first with a primary key is strictly newest first. *)
Lemma order_by_id_desc_strict l :
  unique_ids l → StronglySorted (flip older) (order_by_id_desc l).
Proof.
  intros Hl.
  assert (unique_ids (order_by_id_desc l)) as Hu.
  { unfold unique_ids. by rewrite order_by_id_desc_perm. }
  pose proof (order_by_id_desc_sorted l) as Hs.
  induction Hs as [|a s Hs IH Ha]; [constructor|].
  apply NoDup_cons in Hu as [Hna Hu]. constructor; [by apply IH|].
  apply Forall_forall. intros b Hb. rewrite Forall_forall in Ha.
  specialize (Ha b Hb). unfold flip, older, newer_first in *.
  assert (msg_id b ≠ msg_id a); [|lia].
  intros E. apply Hna. rewrite <-E. by apply list_elem_of_fmap_2.
Qed.

Lemma StronglySorted_reverse {A} (R : relation A) (l : list A) :
  StronglySorted R l → StronglySorted (flip R) (reverse l).
Proof.
  induction 1 as [|a l Hl IH Ha]; [rewrite reverse_nil; constructor|].
  rewrite reverse_cons. apply StronglySorted_app_2; [|done|repeat constructor].
  intros x y Hx ->%list_elem_of_singleton. rewrite elem_of_reverse in Hx.
  rewrite Forall_forall in Ha. by apply Ha.
Qed.

(** *** [INSERT] and the newest row *)

Lemma StronglySorted_weaken {A} (R R' : relation A) l :
  (∀ a b, R a b → R' a b) → StronglySorted R l → StronglySorted R' l.
Proof.
  intros HR. induction 1 as [|a l Hl IH Ha]; constructor; [done|].
  eapply Forall_impl; [done|]. auto.
Qed.

Lemma table_ok_add_row role content d :
  table_ok (messages_table d) → table_ok (messages_table (add_row role content d)).
Proof.
  unfold table_ok, unique_ids. intros [Hu Hle]. simpl. split.
  - rewrite fmap_app. apply NoDup_app. split; [done|]. split; [|apply NoDup_singleton].
    intros i [r [-> Hr]]%list_elem_of_fmap Hi. simpl in Hi.
    apply list_elem_of_singleton in Hi. rewrite Forall_forall in Hle.
    specialize (Hle r Hr). lia.
  - apply Forall_app. split.
    + eapply Forall_impl; [done|]. simpl. intros. lia.
    + repeat constructor. simpl. lia.
Qed.

(** The row just inserted is the first one of [ORDER BY id DESC]. *)
Lemma order_by_id_desc_add_row role content d :
  table_ok (messages_table d) →
  order_by_id_desc (rows (messages_table (add_row role content d))) =
    MessageRow (seq (messages_table d) + 1) role content
      :: order_by_id_desc (rows (messages_table d)).
Proof.
  intros Hok. pose proof (table_ok_add_row role content d Hok) as [Hu _].
  destruct Hok as [_ Hle]. apply order_by_id_desc_unique; [done|..].
  - simpl. rewrite order_by_id_desc_perm. by rewrite Permutation_app_comm.
  - constructor; [apply order_by_id_desc_sorted|].
    apply Forall_forall. intros r Hr. rewrite order_by_id_desc_perm in Hr.
    rewrite Forall_forall in Hle. specialize (Hle r Hr).
    unfold newer_first. simpl. lia.
Qed.

Lemma window_rows_1_add_row role content d :
  table_ok (messages_table d) →
  window_rows 1 (add_row role content d) =
    [MessageRow (seq (messages_table d) + 1) role content].
Proof.
  intros Hok. unfold window_rows. by rewrite order_by_id_desc_add_row.
Qed.

(** *** Tables filled by [INSERT] alone *)

Lemma chronological_unique_ids l : StronglySorted older l → unique_ids l.
Proof.
  unfold unique_ids. induction 1 as [|a l Hl IH Ha]; simpl; constructor; [|done].
  intros [b [E Hb]]%list_elem_of_fmap. rewrite Forall_forall in Ha.
  specialize (Ha b Hb). unfold older in Ha. lia.
Qed.

Lemma order_by_id_desc_chronological l :
  StronglySorted older l → order_by_id_desc l = reverse l.
Proof.
  intros Hl. apply order_by_id_desc_unique.
  - by apply chronological_unique_ids.
  - apply reverse_Permutation.
  - apply (StronglySorted_weaken (flip older)).
    + unfold flip, older, newer_first. intros. lia.
    + by apply StronglySorted_reverse.
Qed.

Lemma chronological_add_row role content d :
  chronological (messages_table d) → chronological (messages_table (add_row role content d)).
Proof.
  unfold chronological. intros [Hs Hle]. simpl. split.
  - apply StronglySorted_app_2; [|done|repeat constructor].
    intros a b Ha ->%list_elem_of_singleton. rewrite Forall_forall in Hle.
    specialize (Hle a Ha). unfold older. simpl. lia.
  - apply Forall_app. split.
    + eapply Forall_impl; [done|]. simpl. intros. lia.
    + repeat constructor. simpl. lia.
Qed.

Lemma chronological_table_ok t : chronological t → table_ok t.
Proof. intros [Hs Hle]. split; [by apply chronological_unique_ids|done]. Qed.

Lemma window_rows_chronological n d :
  0 ≤ n → chronological (messages_table d) →
  window_rows n d =
    drop (length (rows (messages_table d)) - Z.to_nat n) (rows (messages_table d)).
Proof.
  intros Hn [Hs _]. unfold window_rows, limit.
  destruct (Z.ltb_spec n 0) as [?|_]; [lia|].
  rewrite order_by_id_desc_chronological by done.
  rewrite reverse_take, length_reverse. by rewrite reverse_involutive.
Qed.

(** *** Sequences of appends *)

Lemma appends_ok ms w :
  healthy (length ms) w →
  appends ms w =
    (Ok (), World (add_rows ms (db w)) (drop (length ms) (faults w))
                  (trace w ++ ((λ m, SqlInsertMessage m.1 m.2) <$> ms))).
Proof.
  revert w. induction ms as [|m ms IH]; intros w H; simpl in *.
  - unfold ret. rewrite app_nil_r, drop_0. by destruct w.
  - assert (healthy 1 w) as H1 by (eapply healthy_le; [|done]; lia).
    rewrite (bind_ok _ _ _ _ _ (add_message_to_db_ok _ _ _ H1)).
    apply healthy_S in H as [_ H]. rewrite IH by apply H. simpl.
    rewrite <-app_assoc. simpl. destruct (faults w); simpl; by rewrite ?drop_nil.
Qed.

Lemma add_rows_chronological ms d :
  chronological (messages_table d) → chronological (messages_table (add_rows ms d)).
Proof.
  revert d. induction ms as [|m ms IH]; intros d H; simpl; [done|].
  apply IH. by apply chronological_add_row.
Qed.

Lemma add_rows_dicts ms d :
  dict_of_row <$> rows (messages_table (add_rows ms d)) =
    (dict_of_row <$> rows (messages_table d)) ++ (dict_of_pair <$> ms).
Proof.
  revert d. induction ms as [|m ms IH]; intros d; simpl.
  - by rewrite app_nil_r.
  - change (foldl _ ?d' ms) with (add_rows ms d'). rewrite IH. simpl.
    by rewrite fmap_app, <-app_assoc.
Qed.

Lemma add_rows_usage ms d : usage_table (add_rows ms d) = usage_table d.
Proof. revert d. induction ms as [|m ms IH]; intros d; simpl; [done|]. by rewrite IH. Qed.

Lemma fresh_chronological : chronological (messages_table (init_db None)).
Proof. split; constructor. Qed.

(** Reading a window of a store filled from empty by appends. *)
Lemma window_after_appends ms n script :
  0 ≤ n < 2 ^ 63 → healthy (S (length ms)) (fresh script) →
  ∃ w w', appends ms (fresh script) = (Ok (), w) ∧
          get_conversation_messages n w =
            (Ok (dict_of_pair <$> drop (length ms - Z.to_nat n) ms), w') ∧
          db w' = db w.
Proof.
  intros Hn H.
  assert (healthy (length ms) (fresh script)) as Hms by (eapply healthy_le; [|done]; lia).
  eexists _, _. split; [by apply appends_ok|].
  assert (healthy 1 (World (add_rows ms (db (fresh script)))
                           (drop (length ms) (faults (fresh script)))
                           (trace (fresh script) ++ ((λ m, SqlInsertMessage m.1 m.2) <$> ms)))) as H1.
  { unfold healthy in *. simpl in *. rewrite take_drop_commute.
    rewrite Nat.add_comm. by apply Forall_drop. }
  rewrite get_conversation_messages_ok by (done || (apply fits_int64_range; lia)).
  assert (dict_of_row <$> window_rows n (add_rows ms (db (fresh script))) =
          dict_of_pair <$> drop (length ms - Z.to_nat n) ms) as E; [|by rewrite <-E].
  rewrite window_rows_chronological;
    [|lia|apply add_rows_chronological, fresh_chronological].
  rewrite fmap_drop, add_rows_dicts. simpl.
  rewrite <-(length_fmap dict_of_row), add_rows_dicts. simpl.
  by rewrite length_fmap, fmap_drop.
Qed.

(** ** Properties of the message store *)

(** C4. For every positive [n] that SQLite takes as a LIMIT (an
    INTEGER, [n < 2 ^ 63]) and every stored history, whatever the
    physical order of its rows, [get_conversation_messages(n)] returns
    exactly [min(n, L)] messages, [L] being the number of stored rows:
    they are the dicts of the rows [recent], where [earlier ++ recent]
    lists all stored rows in strictly increasing id order, so the
    result is the tail of the history, oldest first; the read changes
    nothing in the file.  In particular, after 11 appends to a new
    store, [get_conversation_messages(10)] returns messages 2 to 11 in
    append order, without message 1. *)
Theorem window_returns_chronological_tail :
  (∀ (n : Z) (w : world),
     0 < n < 2 ^ 63 → unique_ids (rows (messages_table (db w))) → healthy 1 w →
     ∃ earlier recent w',
       get_conversation_messages n w = (Ok (dict_of_row <$> recent), w') ∧
       db w' = db w ∧
       earlier ++ recent ≡ₚ rows (messages_table (db w)) ∧
       StronglySorted older (earlier ++ recent) ∧
       Z.of_nat (length (dict_of_row <$> recent)) =
         Z.min n (Z.of_nat (length (rows (messages_table (db w)))))) ∧
  (∀ (ms : list (string * string)) (script : list (option string)),
     length ms = 11%nat → healthy 12 (fresh script) →
     ∃ w w',
       appends ms (fresh script) = (Ok (), w) ∧
       get_conversation_messages 10 w = (Ok (dict_of_pair <$> drop 1 ms), w')).
Proof.
  split.
  - intros n w Hn Hu H.
    set (s := order_by_id_desc (rows (messages_table (db w)))).
    exists (reverse (drop (Z.to_nat n) s)), (reverse (take (Z.to_nat n) s)).
    eexists. split; [|split; [|split; [|split]]].
    + rewrite get_conversation_messages_ok by (done || (apply fits_int64_range; lia)).
      unfold window_rows, limit.
      destruct (Z.ltb_spec n 0) as [?|_]; [lia|]. reflexivity.
    + done.
    + rewrite <-reverse_app, take_drop, reverse_Permutation.
      apply order_by_id_desc_perm.
    + rewrite <-reverse_app, take_drop.
      apply (StronglySorted_reverse (flip older)).
      by apply order_by_id_desc_strict.
    + rewrite length_fmap, length_reverse, length_take.
      unfold s. rewrite (Permutation_length (order_by_id_desc_perm _)). lia.
  - intros ms script Hlen H.
    destruct (window_after_appends ms 10 script) as (w & w' & Happ & Hget & _);
      [lia|by rewrite Hlen|].
    exists w, w'. split; [done|]. rewrite Hget, Hlen.
    by replace (11 - Z.to_nat 10)%nat with 1%nat by lia.
Qed.

Lemma window_returns_chronological_tail_witness :
  (0 < 2 < 2 ^ 63 ∧
   unique_ids [MessageRow 3 "user" "c"; MessageRow 1 "user" "a"; MessageRow 2 "assistant" "b"] ∧
   healthy 1 (World (Database (Table [MessageRow 3 "user" "c"; MessageRow 1 "user" "a";
                                       MessageRow 2 "assistant" "b"] 3)
                              (Table [] 0)) [] []) ∧
   (get_conversation_messages 2
      (World (Database (Table [MessageRow 3 "user" "c"; MessageRow 1 "user" "a";
                               MessageRow 2 "assistant" "b"] 3)
                       (Table [] 0)) [] [])).1 =
     Ok [Message "assistant" "b"; Message "user" "c"] ∧
   ∃ earlier recent w',
     get_conversation_messages 2
       (World (Database (Table [MessageRow 3 "user" "c"; MessageRow 1 "user" "a";
                                MessageRow 2 "assistant" "b"] 3)
                        (Table [] 0)) [] []) = (Ok (dict_of_row <$> recent), w') ∧
     db w' = Database (Table [MessageRow 3 "user" "c"; MessageRow 1 "user" "a";
                              MessageRow 2 "assistant" "b"] 3) (Table [] 0) ∧
     earlier ++ recent ≡ₚ [MessageRow 3 "user" "c"; MessageRow 1 "user" "a";
                           MessageRow 2 "assistant" "b"] ∧
     StronglySorted older (earlier ++ recent) ∧
     Z.of_nat (length (dict_of_row <$> recent)) = Z.min 2 (Z.of_nat 3)) ∧
  (healthy 12 (fresh []) ∧
   ∃ w w',
     appends [("user", "m1"); ("assistant", "m2"); ("user", "m3"); ("assistant", "m4");
              ("user", "m5"); ("assistant", "m6"); ("user", "m7"); ("assistant", "m8");
              ("user", "m9"); ("assistant", "m10"); ("user", "m11")] (fresh []) = (Ok (), w) ∧
     get_conversation_messages 10 w =
       (Ok [Message "assistant" "m2"; Message "user" "m3"; Message "assistant" "m4";
            Message "user" "m5"; Message "assistant" "m6"; Message "user" "m7";
            Message "assistant" "m8"; Message "user" "m9"; Message "assistant" "m10";
            Message "user" "m11"], w')).
Proof.
  assert (unique_ids [MessageRow 3 "user" "c"; MessageRow 1 "user" "a";
                      MessageRow 2 "assistant" "b"]) as Hu.
  { unfold unique_ids. simpl. apply (bool_decide_unpack _). vm_compute. reflexivity. }
  assert (∀ k d t, healthy k (World d [] t)) as Hh.
  { intros. unfold healthy. simpl. rewrite take_nil. constructor. }
  split.
  - split; [lia|]. split; [exact Hu|]. split; [apply Hh|].
    split; [vm_compute; reflexivity|].
    apply (proj1 window_returns_chronological_tail 2
             (World (Database (Table [MessageRow 3 "user" "c"; MessageRow 1 "user" "a";
                                      MessageRow 2 "assistant" "b"] 3)
                              (Table [] 0)) [] []));
      [lia|exact Hu|apply Hh].
  - split; [apply Hh|].
    apply (proj2 window_returns_chronological_tail
             [("user", "m1"); ("assistant", "m2"); ("user", "m3"); ("assistant", "m4");
              ("user", "m5"); ("assistant", "m6"); ("user", "m7"); ("assistant", "m8");
              ("user", "m9"); ("assistant", "m10"); ("user", "m11")] []);
      [reflexivity|apply Hh].
Defined.

(** C5. Round trip of the message store: starting from a new (empty)
    store, after any finite sequence [ms] of
    [add_message_to_db(role, content)] calls,
    [get_conversation_messages(L)] with [L = len(ms)] returns exactly
    the appended messages, in append order.  ([L] is bound as the
    LIMIT, so it is an INTEGER: below [2 ^ 63], as the length of any
    history that can be stored is.) *)
Theorem window_of_everything_is_what_was_appended
    (ms : list (string * string)) (script : list (option string)) :
  Z.of_nat (length ms) < 2 ^ 63 →
  healthy (S (length ms)) (fresh script) →
  ∃ w w',
    appends ms (fresh script) = (Ok (), w) ∧
    get_conversation_messages (Z.of_nat (length ms)) w = (Ok (dict_of_pair <$> ms), w') ∧
    db w' = db w.
Proof.
  intros HL H.
  destruct (window_after_appends ms (Z.of_nat (length ms)) script)
    as (w & w' & Happ & Hget & Hdb); [lia|done|].
  exists w, w'. split; [done|]. split; [|done].
  rewrite Hget, Nat2Z.id, Nat.sub_diag. by rewrite drop_0.
Qed.

Lemma window_of_everything_is_what_was_appended_witness :
  Z.of_nat 3 < 2 ^ 63 ∧ healthy 4 (fresh [None; None]) ∧
  ∃ w w',
    appends [("user", "hi"); ("assistant", "hello"); ("user", "bye")] (fresh [None; None])
      = (Ok (), w) ∧
    get_conversation_messages 3 w =
      (Ok [Message "user" "hi"; Message "assistant" "hello"; Message "user" "bye"], w') ∧
    db w' = db w.
Proof.
  assert (healthy 4 (fresh [None; None])) as H by (repeat constructor).
  split; [done|]. split; [exact H|].
  exact (window_of_everything_is_what_was_appended
           [("user", "hi"); ("assistant", "hello"); ("user", "bye")] [None; None]
           ltac:(done) H).
Defined.

(** ** The usage ledger *)

(** *** Ints that convert to [float] *)

Lemma digits2_pos_size p : digits2_pos p = Pos.size p.
Proof. induction p; simpl; by rewrite ?IHp. Qed.

Lemma digits2_pos_bound p k : 0 ≤ k → Z.pos p < 2 ^ k → Z.pos (digits2_pos p) ≤ k.
Proof.
  intros Hk Hp. rewrite digits2_pos_size.
  pose proof (Pos.size_le p) as Hle.
  apply Pos2Z.pos_le_pos in Hle. rewrite Pos2Z.inj_pow in Hle.
  change (Z.pos p~0) with (2 * Z.pos p) in Hle.
  destruct (Z.le_gt_cases (Z.pos (Pos.size p)) k) as [|Hgt]; [done|].
  assert (2 ^ (k + 1) ≤ 2 ^ Z.pos (Pos.size p)) by (apply Z.pow_le_mono_r; lia).
  rewrite Z.pow_add_r in * by lia. lia.
Qed.

Lemma Zdigits2_bound m k : 0 ≤ k → 0 ≤ m < 2 ^ k → Zdigits2 m ≤ k.
Proof.
  intros Hk Hm. destruct m as [|p|p]; simpl; [done| |lia].
  apply digits2_pos_bound; lia.
Qed.

Lemma shr_1_le mrs : 0 ≤ shr_m mrs → 0 ≤ shr_m (shr_1 mrs) ≤ shr_m mrs.
Proof.
  destruct mrs as [m r s]. simpl. intros Hm.
  destruct m as [|[p|p|]|p]; simpl; lia.
Qed.

Lemma iter_pos_shr_1_le n mrs :
  0 ≤ shr_m mrs → 0 ≤ shr_m (SpecFloat.iter_pos shr_1 n mrs) ≤ shr_m mrs.
Proof.
  revert mrs. induction n as [n IH|n IH|]; intros mrs Hm; simpl.
  - pose proof (shr_1_le mrs Hm) as H1.
    pose proof (IH _ (proj1 H1)) as H2. pose proof (IH _ (proj1 H2)) as H3. lia.
  - pose proof (IH _ Hm) as H2. pose proof (IH _ (proj1 H2)) as H3. lia.
  - by apply shr_1_le.
Qed.

(** Shifting to the exponent of the format: the mantissa does not
    grow, and the exponent is the larger of the old one and the one of
    the format. *)
Lemma shr_fexp_bound m e l k :
  0 ≤ k → 0 ≤ m < 2 ^ k →
  0 ≤ shr_m (shr_fexp prec emax m e l).1 ≤ m ∧
  (shr_fexp prec emax m e l).2 ≤ Z.max e (Z.max (k + e - 53) (-1074)).
Proof.
  intros Hk Hm. unfold shr_fexp, shr, fexp, SpecFloat.emin, prec, emax.
  pose proof (Zdigits2_bound m k Hk Hm) as Hd.
  assert (shr_m (shr_record_of_loc m l) = m) as Hrec by by destruct l as [|[]].
  destruct (Z.max (Zdigits2 m + e - 53) (3 - 1024 - 53) - e) as [|n|n] eqn:En; simpl.
  - rewrite Hrec. lia.
  - pose proof (iter_pos_shr_1_le n (shr_record_of_loc m l)) as H. rewrite Hrec in H. lia.
  - rewrite Hrec. lia.
Qed.

Lemma round_nearest_even_bound m l : 0 ≤ m → 0 ≤ round_nearest_even m l ≤ m + 1.
Proof.
  intros Hm. unfold round_nearest_even. destruct l as [|[]]; try lia.
  destruct (Z.even m); lia.
Qed.

(** Rounding a mantissa of at most [k] bits with a small exponent does
    not overflow. *)
Lemma binary_round_aux_finite s m e l k :
  0 ≤ k → 0 ≤ m < 2 ^ k → -1074 ≤ e → e + 2 * k ≤ 900 →
  match binary_round_aux prec emax s m e l with
  | S754_infinity _ => False
  | _ => True
  end.
Proof.
  intros Hk Hm He Hek. unfold binary_round_aux.
  pose proof (shr_fexp_bound m e l k Hk Hm) as [H1 He1].
  destruct (shr_fexp prec emax m e l) as [mrs' e']. simpl in H1, He1.
  pose proof (round_nearest_even_bound (shr_m mrs') (loc_of_shr_record mrs') (proj1 H1)) as Hr.
  assert (2 ^ (k + 1) = 2 * 2 ^ k) as Hpow by (rewrite Z.pow_add_r by lia; lia).
  pose proof (shr_fexp_bound (round_nearest_even (shr_m mrs') (loc_of_shr_record mrs'))
                e' loc_Exact (k + 1) ltac:(lia) ltac:(lia)) as [H2 He2].
  destruct (shr_fexp prec emax _ e' loc_Exact) as [mrs'' e'']. simpl in H2, He2.
  destruct (shr_m mrs'') as [|p|p]; [done| |done].
  destruct (Z.leb_spec e'' (emax - prec)) as [|Hgt]; [done|].
  unfold emax, prec in Hgt. lia.
Qed.

Lemma iter_xO_bound p n k :
  0 ≤ k → Z.pos p < 2 ^ k → Z.pos (Pos.iter xO p n) < 2 ^ (k + Z.pos n).
Proof.
  intros Hk Hp. change (Pos.iter xO p n) with (shift_pos n p).
  rewrite shift_pos_correct, Z.pow_pos_fold.
  rewrite Z.pow_add_r by lia.
  assert (0 < 2 ^ Z.pos n) by (apply Z.pow_pos_nonneg; lia). nia.
Qed.

(** An INTEGER is a [float]. *)
Lemma fits_int64_float z : fits_int64 z = true → fits_float z = true.
Proof.
  unfold fits_int64. rewrite andb_true_iff, Z.leb_le, Z.ltb_lt. intros Hz.
  assert (2 ^ 63 < 2 ^ 64) as H64 by (apply Z.pow_lt_mono_r; lia).
  unfold fits_float, nearest_float, binary_normalize.
  destruct z as [|p|p]; [done|..].
  all: unfold binary_round, shl_align.
  all: pose proof (Pos2Z.is_pos (digits2_pos p)) as Hd.
  all: destruct (fexp prec emax (Z.pos (digits2_pos p) + 0) - 0) as [|n|n] eqn:En.
  all: unfold fexp, SpecFloat.emin, prec, emax in En.
  all: try match goal with
    | |- context [binary_round_aux _ _ ?s (Z.pos ?m) 0 ?l] =>
        pose proof (binary_round_aux_finite s (Z.pos m) 0 l 64 ltac:(lia) ltac:(lia)
                      ltac:(lia) ltac:(lia)) as Hfin;
        by destruct (binary_round_aux _ _ s (Z.pos m) 0 l)
    end.
  all: match goal with
    | |- context [binary_round_aux _ _ ?s (Z.pos (Pos.iter xO ?q ?k)) ?e ?l] =>
        pose proof (iter_xO_bound q k 64 ltac:(lia) ltac:(lia)) as Hm;
        assert (2 ^ (64 + Z.pos k) ≤ 2 ^ 116) by (apply Z.pow_le_mono_r; lia);
        pose proof (binary_round_aux_finite s (Z.pos (Pos.iter xO q k)) e l 116
                      ltac:(lia) ltac:(lia)
                      ltac:(unfold fexp, SpecFloat.emin, prec, emax; lia)
                      ltac:(unfold fexp, SpecFloat.emin, prec, emax; lia)) as Hfin;
        by destruct (binary_round_aux _ _ s (Z.pos (Pos.iter xO q k)) e l)
    end.
Qed.

(** *** Running the ledger functions *)

Lemma float_of_int_ok z w : fits_float z = true → float_of_int z w = (Ok (nearest_float z), w).
Proof. unfold fits_float, float_of_int. by destruct (nearest_float z). Qed.

Lemma float_of_int_overflow z w :
  fits_float z = false →
  float_of_int z w = (Raise (Exn OverflowError "int too large to convert to float"), w).
Proof. unfold fits_float, float_of_int. by destruct (nearest_float z). Qed.

Lemma truediv_ok z f w :
  fits_float z = true → truediv z f w = (Ok (fdiv (nearest_float z) f), w).
Proof. intros H. unfold truediv. by rewrite (bind_ok _ _ _ _ _ (float_of_int_ok z w H)). Qed.

Lemma truediv_overflow z f w :
  fits_float z = false →
  truediv z f w = (Raise (Exn OverflowError "int too large to convert to float"), w).
Proof.
  intros H. unfold truediv. by rewrite (bind_raise _ _ _ _ _ (float_of_int_overflow z w H)).
Qed.

(** The three ints [record_usage] binds are INTEGERs. *)
Lemma record_usage_integers p c :
  forallb fits_int64 [p; c; p + c] = fits_int64 p && fits_int64 c && fits_int64 (p + c).
Proof. simpl. by rewrite andb_true_r, andb_assoc. Qed.

Lemma record_usage_ok model p c w :
  fits_int64 p && fits_int64 c && fits_int64 (p + c) = true →
  healthy 1 w →
  record_usage model p c w =
    (Ok (), World (add_usage_row model p c (db w)) (tail (faults w))
                  (trace w ++ [SqlInsertUsage model p c (p + c)
                     (cost_at GPT4_PROMPT_COST_PER_1K GPT4_COMPLETION_COST_PER_1K p c)])).
Proof.
  intros Hint H. unfold record_usage.
  pose proof Hint as [[Hp%fits_int64_float Hc%fits_int64_float]%andb_true_iff _]%andb_true_iff.
  rewrite (bind_ok _ _ _ _ _ (truediv_ok p _ w Hp)).
  rewrite (bind_ok _ _ _ _ _ (truediv_ok c _ w Hc)).
  rewrite <-record_usage_integers in Hint.
  by erewrite sqlite3_execute_ok.
Qed.

Lemma record_usage_fail model p c w detail rest :
  fits_float p = true → fits_float c = true → faults w = Some detail :: rest →
  record_usage model p c w =
    (Raise (Exn sqlite3_Error detail),
     World (db w) rest
           (trace w ++ [SqlInsertUsage model p c (p + c)
              (cost_at GPT4_PROMPT_COST_PER_1K GPT4_COMPLETION_COST_PER_1K p c)])).
Proof.
  intros Hp Hc H. unfold record_usage.
  rewrite (bind_ok _ _ _ _ _ (truediv_ok p _ w Hp)).
  rewrite (bind_ok _ _ _ _ _ (truediv_ok c _ w Hc)).
  by rewrite (sqlite3_execute_fail _ _ _ _ _ _ H).
Qed.

(** An int that is no INTEGER is refused when the INSERT binds it. *)
Lemma record_usage_not_integer model p c w :
  fits_float p = true → fits_float c = true →
  fits_int64 p && fits_int64 c && fits_int64 (p + c) = false →
  healthy 1 w →
  record_usage model p c w =
    (Raise (Exn OverflowError "Python int too large to convert to SQLite INTEGER"),
     World (db w) (tail (faults w))
           (trace w ++ [SqlInsertUsage model p c (p + c)
              (cost_at GPT4_PROMPT_COST_PER_1K GPT4_COMPLETION_COST_PER_1K p c)])).
Proof.
  intros Hp Hc Hint H. unfold record_usage.
  rewrite (bind_ok _ _ _ _ _ (truediv_ok p _ w Hp)).
  rewrite (bind_ok _ _ _ _ _ (truediv_ok c _ w Hc)).
  rewrite <-record_usage_integers in Hint.
  by rewrite sqlite3_execute_overflow.
Qed.

(** [record_usage] either returns, having inserted its row, or raises,
    having left the file as it was. *)
Lemma record_usage_cases model p c w :
  ((record_usage model p c w).1 = Ok () ∧
   db (record_usage model p c w).2 = add_usage_row model p c (db w)) ∨
  (∃ e, (record_usage model p c w).1 = Raise e ∧
        (exn_type e = OverflowError ∨ exn_type e = sqlite3_Error) ∧
        db (record_usage model p c w).2 = db w).
Proof.
  unfold record_usage.
  destruct (fits_float p) eqn:Hp.
  2:{ right. rewrite (bind_raise _ _ _ _ _ (truediv_overflow p _ w Hp)).
      eexists. split; [done|]. split; [by left|done]. }
  rewrite (bind_ok _ _ _ _ _ (truediv_ok p _ w Hp)).
  destruct (fits_float c) eqn:Hc.
  2:{ right. rewrite (bind_raise _ _ _ _ _ (truediv_overflow c _ w Hc)).
      eexists. split; [done|]. split; [by left|done]. }
  rewrite (bind_ok _ _ _ _ _ (truediv_ok c _ w Hc)).
  match goal with |- context [sqlite3_execute ?stmt ?ints ?run w] =>
    destruct (sqlite3_execute_cases stmt ints run w)
      as [(e & -> & Hty & ->)|(a & _ & _ & -> & ->)] end.
  - right. eexists. split; [done|]. split; [|done].
    destruct Hty as [?|[? _]]; [by right|by left].
  - left. destruct a. split; reflexivity.
Qed.

(** The answer of the SELECT of the summary, made a summary. *)
Lemma get_usage_summary_ok w :
  healthy 1 w →
  get_usage_summary w =
    (summary_of (db w), World (db w) (tail (faults w)) (trace w ++ [SqlSelectUsage])).
Proof.
  intros H. unfold summary_of, get_usage_summary.
  assert (healthy 1 (World (db w) [] [])) as H0 by constructor.
  destruct (select_sums (db w)) as [[[row0 row1] row2]|detail] eqn:Hsums.
  - rewrite (bind_ok _ _ _ _ _
               (sqlite3_execute_ok _ [] (λ d, (select_sums d, d)) _ _ _ H eq_refl
                  (f_equal (λ r, (r, db w)) Hsums))).
    rewrite (bind_ok _ _ _ _ _
               (sqlite3_execute_ok _ [] (λ d, (select_sums d, d)) _ _ _ H0 eq_refl
                  (f_equal (λ r, (r, db w)) Hsums))).
    simpl. unfold bind, round, ret, raise.
    by destruct (if truthy row2 then row2 else PyInt 0).
  - rewrite (bind_raise _ _ _ _ _
               (sqlite3_execute_refused _ [] (λ d, (select_sums d, d)) _ _ _ H eq_refl
                  (f_equal (λ r, (r, db w)) Hsums))).
    by rewrite (bind_raise _ _ _ _ _
               (sqlite3_execute_refused _ [] (λ d, (select_sums d, d)) _ _ _ H0 eq_refl
                  (f_equal (λ r, (r, db w)) Hsums))).
Qed.

(** *** What keeps a property of the file *)

Lemma preserves_ret {A} P (a : A) : preserves P (ret a).
Proof. by intros w. Qed.

Lemma preserves_raise {A} P e : preserves P (raise (A:=A) e).
Proof. by intros w. Qed.

Lemma preserves_emit P ev : preserves P (emit ev).
Proof. by intros w. Qed.

Lemma preserves_bind {A B} P (c : M A) (k : A → M B) :
  preserves P c → (∀ a, preserves P (k a)) → preserves P (bind c k).
Proof.
  intros Hc Hk w HP. specialize (Hc w HP). unfold bind.
  destruct (c w) as [[a|e] w']; simpl in *; [by apply Hk|done].
Qed.

Lemma preserves_try_except {A} P (body : M A) handler :
  preserves P body → (∀ e, preserves P (handler e)) → preserves P (try_except body handler).
Proof.
  intros Hb Hh w HP. specialize (Hb w HP). unfold try_except.
  destruct (body w) as [[a|e] w']; simpl in *; [done|by apply Hh].
Qed.

Lemma preserves_sqlite3_execute {A} P stmt integers (run : database → answer A * database) :
  (∀ d, P d → P (run d).2) → preserves P (sqlite3_execute stmt integers run).
Proof.
  intros Hrun w HP.
  destruct (sqlite3_execute_cases stmt integers run w)
    as [(e & _ & _ & ->)|(a & _ & _ & _ & ->)]; auto.
Qed.

Lemma preserves_truediv P z f : preserves P (truediv z f).
Proof.
  apply preserves_bind; [|intros; apply preserves_ret].
  unfold float_of_int. destruct (nearest_float z);
    first [apply preserves_ret | apply preserves_raise].
Qed.

Lemma preserves_round P v n : preserves P (round v n).
Proof. destruct v; first [apply preserves_ret | apply preserves_raise]. Qed.

Ltac keeps :=
  repeat lazymatch goal with
  | |- preserves _ (sqlite3_execute _ _ _) => apply preserves_sqlite3_execute; intros
  | |- preserves _ (bind _ _) => apply preserves_bind; [|intros]
  | |- preserves _ (try_except _ _) => apply preserves_try_except; [|intros]
  | |- preserves _ (ret _) => apply preserves_ret
  | |- preserves _ (raise _) => apply preserves_raise
  | |- preserves _ (emit _) => apply preserves_emit
  | |- preserves _ (truediv _ _) => apply preserves_truediv
  | |- preserves _ (round _ _) => apply preserves_round
  | |- preserves _ (let _ := _ in _) => cbv zeta
  end; try done.

Section Invariant.

Variable P : database → Prop.
Hypothesis P_add_row : ∀ role content d, P d → P (add_row role content d).
Hypothesis P_add_usage_row : ∀ model p c d, P d → P (add_usage_row model p c d).

Lemma preserves_add_message_to_db role content : preserves P (add_message_to_db role content).
Proof. unfold add_message_to_db. keeps. by apply P_add_row. Qed.

Lemma preserves_get_conversation_messages n : preserves P (get_conversation_messages n).
Proof. unfold get_conversation_messages. keeps. Qed.

Lemma preserves_record_usage model p c : preserves P (record_usage model p c).
Proof.
  intros w HP. destruct (record_usage_cases model p c w) as [[_ ->]|(e & _ & _ & ->)]; auto.
Qed.

Lemma preserves_get_usage_summary : preserves P get_usage_summary.
Proof.
  unfold get_usage_summary. keeps.
  destruct a as [[row0 row1] row2]. keeps.
Qed.

Lemma preserves_generate_chat_completion create messages :
  preserves P (generate_chat_completion create messages).
Proof.
  unfold generate_chat_completion, openai_ChatCompletion_create, print. keeps.
  - by intros w.
  - apply preserves_record_usage.
Qed.

Lemma preserves_chat create data : preserves P (chat create data).
Proof.
  unfold chat. keeps.
  - apply preserves_add_message_to_db.
  - apply preserves_get_conversation_messages.
  - apply preserves_generate_chat_completion.
  - apply preserves_add_message_to_db.
Qed.

(** A property of the file that the two inserts keep and that holds of
    a new file holds in every world the program can be in. *)
Lemma reachable_invariant w : P (init_db None) → reachable w → P (db w).
Proof.
  intros Hinit. induction 1 as [script|w w' Hw IH Hstep]; [done|].
  destruct Hstep.
  - by apply preserves_chat.
  - by apply preserves_get_usage_summary.
  - by apply preserves_add_message_to_db.
  - by apply preserves_get_conversation_messages.
  - by apply preserves_record_usage.
  - done.
Qed.

End Invariant.

(** ** Properties of the usage ledger *)

Lemma rate_table_lookup model pr cr :
  rate_table !! model = Some (pr, cr) →
  model = "gpt-4" ∧ pr = GPT4_PROMPT_COST_PER_1K ∧ cr = GPT4_COMPLETION_COST_PER_1K.
Proof.
  unfold rate_table. intros [E1 E2]%lookup_singleton_Some. by injection E2 as <- <-.
Qed.

Lemma record_usage_integers_range p c :
  - 2 ^ 63 ≤ p < 2 ^ 63 → - 2 ^ 63 ≤ c < 2 ^ 63 → - 2 ^ 63 ≤ p + c < 2 ^ 63 →
  fits_int64 p && fits_int64 c && fits_int64 (p + c) = true.
Proof. intros Hp Hc Hpc. by rewrite !fits_int64_range. Qed.

Lemma record_usage_returns model p c w w' :
  record_usage model p c w = (Ok (), w') → db w' = add_usage_row model p c (db w).
Proof.
  intros E. destruct (record_usage_cases model p c w) as [[_ Hdb]|(e & He & _)].
  - by rewrite E in Hdb.
  - by rewrite E in He.
Qed.

(** C2, as the code has it.  [record_usage] consults no rate table and
    has no unknown-model failure: for every model name, in the rate
    table or not, a call whose token counts and their sum are INTEGERs
    (signed 64-bit) and whose INSERT goes through returns normally and
    persists one usage row for that model, priced at the GPT-4 rates.
    A call that raises does so with [OverflowError] or an error of
    [sqlite3]; it persists nothing, and the summary of the file after
    it equals the summary before. *)
Theorem record_usage_prices_every_model_as_gpt4 (model : string) (p c : Z) (w : world) :
  (- 2 ^ 63 ≤ p < 2 ^ 63 → - 2 ^ 63 ≤ c < 2 ^ 63 → - 2 ^ 63 ≤ p + c < 2 ^ 63 →
   healthy 1 w →
   (record_usage model p c w).1 = Ok () ∧
   rows (usage_table (db (record_usage model p c w).2)) =
     rows (usage_table (db w)) ++
     [UsageRow (seq (usage_table (db w)) + 1) model p c (p + c)
               (cost_at GPT4_PROMPT_COST_PER_1K GPT4_COMPLETION_COST_PER_1K p c)]) ∧
  (∀ e, (record_usage model p c w).1 = Raise e →
        (exn_type e = OverflowError ∨ exn_type e = sqlite3_Error) ∧
        db (record_usage model p c w).2 = db w ∧
        summary_of (db (record_usage model p c w).2) = summary_of (db w)).
Proof.
  split.
  - intros Hp Hc Hpc H. by rewrite record_usage_ok by (done || by apply record_usage_integers_range).
  - intros e He.
    destruct (record_usage_cases model p c w) as [[Hok _]|(e' & He' & Hty & Hdb)].
    { by rewrite Hok in He. }
    rewrite He in He'. injection He' as <-. split; [done|]. split; [done|].
    by rewrite Hdb.
Qed.

Lemma record_usage_prices_every_model_as_gpt4_witness :
  (- 2 ^ 63 ≤ 1000 < 2 ^ 63 ∧ - 2 ^ 63 ≤ 1000 + 1000 < 2 ^ 63 ∧ healthy 1 (fresh []) ∧
   (record_usage "gpt-3.5-turbo" 1000 1000 (fresh [])).1 = Ok () ∧
   rows (usage_table (db (record_usage "gpt-3.5-turbo" 1000 1000 (fresh [])).2)) =
     [UsageRow 1 "gpt-3.5-turbo" 1000 1000 2000 (literal 9 100)]) ∧
  ((record_usage "gpt-3.5-turbo" 1000 1000 (fresh [Some "disk I/O error"])).1 =
     Raise (Exn sqlite3_Error "disk I/O error") ∧
   db (record_usage "gpt-3.5-turbo" 1000 1000 (fresh [Some "disk I/O error"])).2 =
     init_db None ∧
   summary_of (db (record_usage "gpt-3.5-turbo" 1000 1000 (fresh [Some "disk I/O error"])).2) =
     summary_of (init_db None)).
Proof.
  assert (healthy 1 (fresh [])) as H by constructor.
  split.
  - split; [lia|]. split; [lia|]. split; [exact H|].
    exact (proj1 (record_usage_prices_every_model_as_gpt4 "gpt-3.5-turbo" 1000 1000 (fresh []))
                 ltac:(lia) ltac:(lia) ltac:(lia) H).
  - split; [reflexivity|].
    destruct (proj2 (record_usage_prices_every_model_as_gpt4 "gpt-3.5-turbo" 1000 1000
                       (fresh [Some "disk I/O error"]))
                    (Exn sqlite3_Error "disk I/O error") eq_refl) as (_ & Hdb & Hsum).
    split; [exact Hdb|exact Hsum].
Defined.

(** C2, counterexample: ["gpt-3.5-turbo"] is not in the rate table, yet
    recording usage for it on a new file returns normally, persists a
    row and changes the summary from all zeros to 1000, 1000 and 0.09. *)
Lemma record_usage_accepts_unknown_model :
  rate_table !! "gpt-3.5-turbo" = None ∧
  (record_usage "gpt-3.5-turbo" 1000 1000 (fresh [])).1 = Ok () ∧
  rows (usage_table (db (record_usage "gpt-3.5-turbo" 1000 1000 (fresh [])).2)) =
    [UsageRow 1 "gpt-3.5-turbo" 1000 1000 2000 (literal 9 100)] ∧
  (get_usage_summary (fresh [])).1 =
    Ok (UsageSummary (PyInt 0) (PyInt 0) (PyInt 0)) ∧
  (get_usage_summary (record_usage "gpt-3.5-turbo" 1000 1000 (fresh [])).2).1 =
    Ok (UsageSummary (PyInt 1000) (PyInt 1000) (PyFloat (literal 9 100))).
Proof. vm_compute. repeat split; reflexivity. Qed.

(** C6. [record_usage] computes the cost as
    [prompt_tokens / 1000 * prompt_rate + completion_tokens / 1000 *
    completion_rate] (in float arithmetic) with the rates the rate
    table gives for the model, and persists it in the new row.  In
    particular [record_usage("gpt-4", 1000, 1000)], at the rates 0.03
    and 0.06, persists the cost 0.09, and on a ledger that was empty
    before, the summary's [total_cost] is then 0.09. *)
Theorem record_usage_cost :
  (∀ (model : string) (p c : Z) (prompt_rate completion_rate : float) (w w' : world),
     rate_table !! model = Some (prompt_rate, completion_rate) →
     record_usage model p c w = (Ok (), w') →
     rows (usage_table (db w')) =
       rows (usage_table (db w)) ++
       [UsageRow (seq (usage_table (db w)) + 1) model p c (p + c)
                 (cost_at prompt_rate completion_rate p c)]) ∧
  rate_table !! "gpt-4" = Some (literal 3 100, literal 6 100) ∧
  cost_at (literal 3 100) (literal 6 100) 1000 1000 = literal 9 100 ∧
  (∀ w : world,
     rows (usage_table (db w)) = [] → healthy 2 w →
     ∃ w1 w2 s,
       record_usage "gpt-4" 1000 1000 w = (Ok (), w1) ∧
       rows (usage_table (db w1)) =
         [UsageRow (seq (usage_table (db w)) + 1) "gpt-4" 1000 1000 2000 (literal 9 100)] ∧
       get_usage_summary w1 = (Ok s, w2) ∧
       total_cost s = PyFloat (literal 9 100)).
Proof.
  split; [|split; [|split]].
  - intros model p c pr cr w w' (-> & -> & ->)%rate_table_lookup E.
    by rewrite (record_usage_returns _ _ _ _ _ E).
  - by vm_compute.
  - by vm_compute.
  - intros w Hrows H.
    assert (healthy 1 w) as H1 by (eapply healthy_le; [|done]; lia).
    assert (summary_of (add_usage_row "gpt-4" 1000 1000 (db w)) =
            Ok (UsageSummary (PyInt 1000) (PyInt 1000) (PyFloat (literal 9 100)))) as Hs.
    { unfold summary_of, get_usage_summary, sqlite3_execute, bind, emit, select_sums,
        add_usage_row, insert.
      cbn [db usage_table rows faults trace fst snd]. rewrite Hrows.
      vm_compute. reflexivity. }
    eexists _, _, _. split; [by apply record_usage_ok|].
    cbn [db add_usage_row usage_table insert rows]. rewrite Hrows.
    split; [reflexivity|].
    apply healthy_S in H as [_ H]. rewrite get_usage_summary_ok by apply H.
    cbn [db]. rewrite Hs. split; reflexivity.
Qed.

Lemma record_usage_cost_witness :
  (rate_table !! "gpt-4" = Some (literal 3 100, literal 6 100) ∧
   rows (usage_table (db (record_usage "gpt-4" 1500 250 (fresh [])).2)) =
     [] ++ [UsageRow (0 + 1) "gpt-4" 1500 250 (1500 + 250)
                     (cost_at (literal 3 100) (literal 6 100) 1500 250)]) ∧
  (healthy 2 (fresh []) ∧
   ∃ w1 w2 s,
     record_usage "gpt-4" 1000 1000 (fresh []) = (Ok (), w1) ∧
     rows (usage_table (db w1)) = [UsageRow (0 + 1) "gpt-4" 1000 1000 2000 (literal 9 100)] ∧
     get_usage_summary w1 = (Ok s, w2) ∧
     total_cost s = PyFloat (literal 9 100)).
Proof.
  assert (healthy 2 (fresh [])) as H by constructor.
  split.
  - split; [by vm_compute|].
    exact (proj1 record_usage_cost "gpt-4" 1500 250 (literal 3 100) (literal 6 100)
                 (fresh []) (record_usage "gpt-4" 1500 250 (fresh [])).2
                 eq_refl eq_refl).
  - split; [exact H|].
    exact (proj2 (proj2 (proj2 record_usage_cost)) (fresh []) eq_refl H).
Defined.

Lemma totals_add_up_add_usage_row model p c d :
  Forall totals_add_up (rows (usage_table d)) →
  Forall totals_add_up (rows (usage_table (add_usage_row model p c d))).
Proof.
  intros H. simpl. apply Forall_app. split; [done|]. by repeat constructor.
Qed.

(** C7. Every persisted usage record has
    [total_tokens = prompt_tokens + completion_tokens]: the property
    holds of every row of [usage] in every world the program can
    reach from a new file, and every [record_usage(model, p, c)] call
    with non-negative [p] and [c] keeps it; a call that returns adds
    exactly one row, which holds [p], [c] and [p + c]. *)
Theorem usage_totals_add_up :
  (∀ w : world, reachable w → Forall totals_add_up (rows (usage_table (db w)))) ∧
  (∀ (model : string) (p c : Z) (w : world),
     0 ≤ p → 0 ≤ c →
     Forall totals_add_up (rows (usage_table (db w))) →
     Forall totals_add_up (rows (usage_table (db (record_usage model p c w).2))) ∧
     ((record_usage model p c w).1 = Ok () →
      ∃ u, rows (usage_table (db (record_usage model p c w).2)) =
             rows (usage_table (db w)) ++ [u] ∧
           use_prompt_tokens u = p ∧ use_completion_tokens u = c ∧
           use_total_tokens u = p + c)).
Proof.
  split.
  - intros w Hw.
    apply (reachable_invariant (λ d, Forall totals_add_up (rows (usage_table d)))); [..|done].
    + done.
    + intros. by apply totals_add_up_add_usage_row.
    + constructor.
  - intros model p c w _ _ H. split.
    + apply (preserves_record_usage (λ d, Forall totals_add_up (rows (usage_table d))));
        [|done].
      intros. by apply totals_add_up_add_usage_row.
    + intros Hok.
      destruct (record_usage_cases model p c w) as [[_ ->]|(e & He & _)].
      * eexists. split; [reflexivity|]. done.
      * by rewrite Hok in He.
Qed.

Lemma usage_totals_add_up_witness :
  (reachable (chat (λ _ _, Ok (Completion "hello" 12 30)) {[ "user_input" := "hi" ]}
                   (fresh [])).2 ∧
   Forall totals_add_up
     (rows (usage_table (db (chat (λ _ _, Ok (Completion "hello" 12 30))
                                  {[ "user_input" := "hi" ]} (fresh [])).2)))) ∧
  (0 ≤ 12 ∧ 0 ≤ 30 ∧
   Forall totals_add_up (rows (usage_table (db (fresh [])))) ∧
   Forall totals_add_up
     (rows (usage_table (db (record_usage "gpt-4" 12 30 (fresh [])).2))) ∧
   ((record_usage "gpt-4" 12 30 (fresh [])).1 = Ok () →
    ∃ u, rows (usage_table (db (record_usage "gpt-4" 12 30 (fresh [])).2)) =
           rows (usage_table (db (fresh []))) ++ [u] ∧
         use_prompt_tokens u = 12 ∧ use_completion_tokens u = 30 ∧
         use_total_tokens u = 12 + 30)).
Proof.
  assert (reachable (chat (λ _ _, Ok (Completion "hello" 12 30)) {[ "user_input" := "hi" ]}
                          (fresh [])).2) as Hr.
  { eapply reachable_step; [apply (reachable_fresh [])|apply step_chat]. }
  assert (Forall totals_add_up (rows (usage_table (db (fresh []))))) as H0 by constructor.
  split.
  - split; [exact Hr|]. exact (proj1 usage_totals_add_up _ Hr).
  - split; [lia|]. split; [lia|]. split; [exact H0|].
    exact (proj2 usage_totals_add_up "gpt-4" 12 30 (fresh [])
                 ltac:(lia) ltac:(lia) H0).
Defined.

(** C8. On a ledger with no persisted record, [get_usage_summary]
    returns all-zero fields: [total_prompt_tokens = 0],
    [total_completion_tokens = 0], [total_cost = 0]; it changes nothing
    in the file. *)
Theorem summary_of_empty_ledger (w : world) :
  rows (usage_table (db w)) = [] → healthy 1 w →
  ∃ w', get_usage_summary w = (Ok (UsageSummary (PyInt 0) (PyInt 0) (PyInt 0)), w') ∧
        db w' = db w.
Proof.
  intros Hrows H. eexists. rewrite get_usage_summary_ok by done.
  assert (summary_of (db w) = Ok (UsageSummary (PyInt 0) (PyInt 0) (PyInt 0))) as ->.
  { unfold summary_of, get_usage_summary, sqlite3_execute, bind, emit, select_sums.
    cbn [db usage_table rows faults trace fst snd]. by rewrite Hrows. }
  split; reflexivity.
Qed.

Lemma summary_of_empty_ledger_witness :
  rows (usage_table (db (fresh [None]))) = [] ∧ healthy 1 (fresh [None]) ∧
  ∃ w', get_usage_summary (fresh [None]) =
          (Ok (UsageSummary (PyInt 0) (PyInt 0) (PyInt 0)), w') ∧
        db w' = db (fresh [None]).
Proof.
  assert (healthy 1 (fresh [None])) as H by (repeat constructor).
  split; [reflexivity|]. split; [exact H|].
  exact (summary_of_empty_ledger (fresh [None]) eq_refl H).
Defined.

(** ** The /chat turn *)

Section Turn.

Variable create : string → list message → result completion.

Lemma openai_ChatCompletion_create_eq model messages w :
  openai_ChatCompletion_create create model messages w =
    (create model messages,
     World (db w) (faults w) (trace w ++ [ApiRequest model messages])).
Proof. reflexivity. Qed.

(** The [except] branch: two prints, and the error text is the result. *)
Lemma handler_eq e w :
  (print ("Error generating chat completion: " +:+ exn_str e) ;;
   emit (PrintTraceback e) ;;
   ret ("Error: " +:+ exn_str e)) w =
    (Ok ("Error: " +:+ exn_str e),
     World (db w) (faults w)
           (trace w ++ [Print ("Error generating chat completion: " +:+ exn_str e);
                        PrintTraceback e])).
Proof. unfold bind, print, emit, ret; simpl. by rewrite <-app_assoc. Qed.

Lemma generate_chat_completion_api_raises messages e w :
  create "gpt-4" messages = Raise e →
  generate_chat_completion create messages w =
    (Ok ("Error: " +:+ exn_str e),
     World (db w) (faults w)
           (trace w ++ [ApiRequest "gpt-4" messages;
                        Print ("Error generating chat completion: " +:+ exn_str e);
                        PrintTraceback e])).
Proof.
  intros E. unfold generate_chat_completion, try_except.
  rewrite (bind_raise _ _ _ e _ (eq_trans (openai_ChatCompletion_create_eq _ _ _)
                                          (f_equal (λ r, (r, _)) E))).
  rewrite handler_eq. simpl. by rewrite <-app_assoc.
Qed.

Lemma generate_chat_completion_returns messages r w w' :
  create "gpt-4" messages = Ok r →
  record_usage "gpt-4" (usage_prompt_tokens r) (usage_completion_tokens r)
    (openai_ChatCompletion_create create "gpt-4" messages w).2 = (Ok (), w') →
  generate_chat_completion create messages w = (Ok (reply_content r), w').
Proof.
  intros E Hrec. unfold generate_chat_completion, try_except.
  rewrite (bind_ok _ _ _ r _ (eq_trans (openai_ChatCompletion_create_eq _ _ _)
                                       (f_equal (λ r, (r, _)) E))).
  rewrite openai_ChatCompletion_create_eq in Hrec. simpl in Hrec.
  by rewrite (bind_ok _ _ _ _ _ Hrec).
Qed.

Lemma generate_chat_completion_recording_raises messages r e w w' :
  create "gpt-4" messages = Ok r →
  record_usage "gpt-4" (usage_prompt_tokens r) (usage_completion_tokens r)
    (openai_ChatCompletion_create create "gpt-4" messages w).2 = (Raise e, w') →
  generate_chat_completion create messages w =
    (Ok ("Error: " +:+ exn_str e),
     World (db w') (faults w')
           (trace w' ++ [Print ("Error generating chat completion: " +:+ exn_str e);
                         PrintTraceback e])).
Proof.
  intros E Hrec. unfold generate_chat_completion, try_except.
  rewrite (bind_ok _ _ _ r _ (eq_trans (openai_ChatCompletion_create_eq _ _ _)
                                       (f_equal (λ r, (r, _)) E))).
  rewrite openai_ChatCompletion_create_eq in Hrec. simpl in Hrec.
  rewrite (bind_raise _ _ _ _ _ Hrec). by rewrite handler_eq.
Qed.

End Turn.

Section Chat.

Variable create : string → list message → result completion.

(** The turn up to the call of GPT-4, and from its reply on, when the
    statements go through. *)
Lemma chat_steps data w reply w3 :
  healthy 2 w →
  generate_chat_completion create
    (dict_of_row <$> window_rows 10 (add_row "user" (default "" (data !! "user_input")) (db w)))
    (World (add_row "user" (default "" (data !! "user_input")) (db w))
           (tail (tail (faults w)))
           (trace w ++ [SqlInsertMessage "user" (default "" (data !! "user_input"));
                        SqlSelectMessages 10])) = (Ok reply, w3) →
  healthy 1 w3 →
  chat create data w =
    (Ok {[ "response" := reply ]},
     World (add_row "assistant" reply (db w3)) (tail (faults w3))
           (trace w3 ++ [SqlInsertMessage "assistant" reply])).
Proof.
  intros H Hgen H3. unfold chat.
  assert (healthy 1 w) as H1 by (eapply healthy_le; [|done]; lia).
  rewrite (bind_ok _ _ _ _ _ (add_message_to_db_ok _ _ _ H1)).
  apply healthy_S in H as [_ H].
  rewrite (bind_ok _ _ _ _ _ (get_conversation_messages_ok 10 _ eq_refl (H _ _))).
  cbn [db faults trace]. rewrite <-app_assoc. cbn [app].
  rewrite (bind_ok _ _ _ _ _ Hgen).
  by rewrite (bind_ok _ _ _ _ _ (add_message_to_db_ok _ _ _ H3)).
Qed.

(** The turn when the append of the assistant message fails. *)
Lemma chat_last_append_fails data w reply w3 detail rest :
  healthy 2 w →
  generate_chat_completion create
    (dict_of_row <$> window_rows 10 (add_row "user" (default "" (data !! "user_input")) (db w)))
    (World (add_row "user" (default "" (data !! "user_input")) (db w))
           (tail (tail (faults w)))
           (trace w ++ [SqlInsertMessage "user" (default "" (data !! "user_input"));
                        SqlSelectMessages 10])) = (Ok reply, w3) →
  faults w3 = Some detail :: rest →
  chat create data w =
    (Raise (Exn sqlite3_Error detail),
     World (db w3) rest (trace w3 ++ [SqlInsertMessage "assistant" reply])).
Proof.
  intros H Hgen H3. unfold chat.
  assert (healthy 1 w) as H1 by (eapply healthy_le; [|done]; lia).
  rewrite (bind_ok _ _ _ _ _ (add_message_to_db_ok _ _ _ H1)).
  apply healthy_S in H as [_ H].
  rewrite (bind_ok _ _ _ _ _ (get_conversation_messages_ok 10 _ eq_refl (H _ _))).
  cbn [db faults trace]. rewrite <-app_assoc. cbn [app].
  rewrite (bind_ok _ _ _ _ _ Hgen).
  by rewrite (bind_raise _ _ _ _ _ (add_message_to_db_fail _ _ _ _ _ H3)).
Qed.

(** C9. If the first append, that of the user message, fails in
    SQLite, [chat] propagates that error to its caller at once: the
    failed INSERT is the only thing the turn did (no window is read,
    GPT-4 is not called, no assistant message is appended) and the file
    is unchanged. *)
Theorem chat_propagates_first_append_failure
    (data : gmap string string) (w : world) (detail : string) (rest : list (option string)) :
  faults w = Some detail :: rest →
  chat create data w =
    (Raise (Exn sqlite3_Error detail),
     World (db w) rest
           (trace w ++ [SqlInsertMessage "user" (default "" (data !! "user_input"))])).
Proof.
  intros H. unfold chat.
  by rewrite (bind_raise _ _ _ _ _ (add_message_to_db_fail _ _ _ _ _ H)).
Qed.

(** C1. If the call of GPT-4 fails with an error [e], [chat] does not
    raise: it returns the text ["Error: " + str(e)] as the response
    and appends that exact text as an assistant message after the user
    message, so that the next [get_conversation_messages(1)] returns
    it; nothing is recorded in the ledger.  (The statements sent to
    SQLite are assumed to go through; a failing one is C9's case.) *)
Theorem chat_llm_failure_becomes_reply
    (data : gmap string string) (w : world) (history : list message) (e : exn) :
  let user_input := default "" (data !! "user_input") in
  let text := "Error: " +:+ exn_str e in
  table_ok (messages_table (db w)) →
  healthy 4 w →
  (get_conversation_messages 10 (add_message_to_db "user" user_input w).2).1 = Ok history →
  create "gpt-4" history = Raise e →
  ∃ w',
    chat create data w = (Ok {[ "response" := text ]}, w') ∧
    rows (messages_table (db w')) =
      rows (messages_table (db w)) ++
      [MessageRow (seq (messages_table (db w)) + 1) "user" user_input;
       MessageRow (seq (messages_table (db w)) + 2) "assistant" text] ∧
    usage_table (db w') = usage_table (db w) ∧
    (get_conversation_messages 1 w').1 = Ok [Message "assistant" text].
Proof.
  intros user_input text Hok H Hhist Hfail.
  assert (healthy 1 w) as H1 by (apply (healthy_le 1 4); [lia|done]).
  assert (healthy 2 w) as H2 by (apply (healthy_le 2 4); [lia|done]).
  apply healthy_S in H as [_ H]. pose proof (H (db w) []) as [_ H']%healthy_S.
  pose proof (H' (db w) []) as [_ H'']%healthy_S. cbn [faults] in H', H''.
  rewrite add_message_to_db_ok in Hhist by done. cbn [snd] in Hhist.
  rewrite (get_conversation_messages_ok 10 _ eq_refl) in Hhist
    by (apply (healthy_le 1 3); [lia|apply H]).
  cbn [fst db] in Hhist. injection Hhist as <-.
  eexists. split; [|split; [|split]].
  - apply chat_steps; [done| |].
    + by apply generate_chat_completion_api_raises.
    + apply (healthy_le 1 2); [lia|apply H'].
  - cbn [db add_row messages_table insert rows seq]. rewrite <-app_assoc. cbn [app].
    by replace (seq (messages_table (db w)) + 1 + 1) with (seq (messages_table (db w)) + 2)
      by lia.
  - reflexivity.
  - rewrite (get_conversation_messages_ok 1 _ eq_refl) by apply H''. cbn [fst db].
    rewrite window_rows_1_add_row; [done|]. by apply table_ok_add_row.
Qed.

(** C3, as the code has it.  If GPT-4 answers but recording the usage
    then raises an error [e], that error does not reach the caller of
    [chat]: it is caught and printed, with its traceback.  But the
    reply is lost: the text ["Error: " + str(e)] takes its place.  When
    the append of the assistant message goes through, that text is what
    [chat] stores as the assistant message and returns; when that
    append fails, [chat] raises the error of [sqlite3], with the user
    message stored alone.  Either way the reply is neither returned nor
    stored, and the ledger is left as it was. *)
Theorem chat_recording_failure_replaces_reply
    (data : gmap string string) (w : world) (history : list message)
    (r : completion) (e : exn) :
  let user_input := default "" (data !! "user_input") in
  let w1 := (add_message_to_db "user" user_input w).2 in
  let w2 := (get_conversation_messages 10 w1).2 in
  let w3 := (openai_ChatCompletion_create create "gpt-4" history w2).2 in
  let recording :=
    record_usage "gpt-4" (usage_prompt_tokens r) (usage_completion_tokens r) w3 in
  let text := "Error: " +:+ exn_str e in
  healthy 2 w →
  (get_conversation_messages 10 w1).1 = Ok history →
  create "gpt-4" history = Ok r →
  recording.1 = Raise e →
  (healthy 1 recording.2 →
   ∃ w',
     chat create data w = (Ok {[ "response" := text ]}, w') ∧
     rows (messages_table (db w')) =
       rows (messages_table (db w)) ++
       [MessageRow (seq (messages_table (db w)) + 1) "user" user_input;
        MessageRow (seq (messages_table (db w)) + 2) "assistant" text] ∧
     usage_table (db w') = usage_table (db w) ∧
     Print ("Error generating chat completion: " +:+ exn_str e) ∈ trace w' ∧
     PrintTraceback e ∈ trace w') ∧
  (∀ detail rest,
     faults recording.2 = Some detail :: rest →
     ∃ w',
       chat create data w = (Raise (Exn sqlite3_Error detail), w') ∧
       rows (messages_table (db w')) =
         rows (messages_table (db w)) ++
         [MessageRow (seq (messages_table (db w)) + 1) "user" user_input] ∧
       usage_table (db w') = usage_table (db w) ∧
       Print ("Error generating chat completion: " +:+ exn_str e) ∈ trace w' ∧
       PrintTraceback e ∈ trace w').
Proof.
  intros user_input w1 w2 w3 recording text H Hhist Hcreate Hraise.
  assert (healthy 1 w) as H1 by (eapply healthy_le; [|done]; lia).
  pose proof H as [_ H']%healthy_S.
  assert (w1 = World (add_row "user" user_input (db w)) (tail (faults w))
                     (trace w ++ [SqlInsertMessage "user" user_input])) as Ew1.
  { unfold w1. by rewrite add_message_to_db_ok. }
  assert (get_conversation_messages 10 w1 =
          (Ok (dict_of_row <$> window_rows 10 (add_row "user" user_input (db w))),
           World (add_row "user" user_input (db w)) (tail (tail (faults w)))
                 (trace w ++ [SqlInsertMessage "user" user_input; SqlSelectMessages 10])))
    as Eget.
  { rewrite Ew1, (get_conversation_messages_ok 10 _ eq_refl) by apply H'.
    cbn [db faults trace]. by rewrite <-app_assoc. }
  rewrite Eget in Hhist. cbn [fst] in Hhist. injection Hhist as <-.
  assert (db recording.2 = add_row "user" user_input (db w)) as Edb.
  { unfold recording.
    destruct (record_usage_cases "gpt-4" (usage_prompt_tokens r) (usage_completion_tokens r) w3)
      as [[Hok _]|(e' & _ & _ & ->)].
    - unfold recording in Hraise. by rewrite Hok in Hraise.
    - unfold w3, w2. by rewrite openai_ChatCompletion_create_eq, Eget. }
  assert (recording = (Raise e, recording.2)) as Erec.
  { destruct recording as [res wr]. cbn [fst] in Hraise. by rewrite Hraise. }
  unfold recording at 1, w3, w2 in Erec. rewrite Eget in Erec. cbn [snd] in Erec.
  pose proof (generate_chat_completion_recording_raises create _ r e _ _ Hcreate Erec)
    as Hgen.
  split.
  - intros Hrest.
    pose proof (chat_steps data w text _ H Hgen Hrest) as Hchat.
    eexists. split; [exact Hchat|]. cbn [db trace]. rewrite Edb.
    split; [|split; [|split]].
    + cbn [add_row messages_table insert rows seq]. rewrite <-app_assoc. cbn [app].
      by replace (seq (messages_table (db w)) + 1 + 1)
        with (seq (messages_table (db w)) + 2) by lia.
    + reflexivity.
    + set_solver.
    + set_solver.
  - intros detail rest Hf.
    pose proof (chat_last_append_fails data w text _ detail rest H Hgen Hf) as Hchat.
    eexists. split; [exact Hchat|]. cbn [db trace]. rewrite Edb.
    split; [|split; [|split]].
    + reflexivity.
    + reflexivity.
    + set_solver.
    + set_solver.
Qed.

(** C10. When the JSON object of a [POST /chat] request has no
    [user_input] key, [chat] takes the empty string for it: the request
    is served as one with [user_input] set to [""], that is, a user
    message with empty content is appended and the turn (window read,
    call of GPT-4, append of the assistant message) is the same
    sequence that serves any other input [s]. *)
Theorem chat_without_user_input (data : gmap string string) (w : world) :
  data !! "user_input" = None →
  chat create data w = chat create (<["user_input" := ""]> data) w ∧
  chat create data w =
    (add_message_to_db "user" "" ;;
     conversation_history <- get_conversation_messages 10 ;;
     assistant_reply <- generate_chat_completion create conversation_history ;;
     add_message_to_db "assistant" assistant_reply ;;
     ret {[ "response" := assistant_reply ]}) w ∧
  (∀ s : string,
     chat create (<["user_input" := s]> data) w =
       (add_message_to_db "user" s ;;
        conversation_history <- get_conversation_messages 10 ;;
        assistant_reply <- generate_chat_completion create conversation_history ;;
        add_message_to_db "assistant" assistant_reply ;;
        ret {[ "response" := assistant_reply ]}) w) ∧
  (healthy 1 w →
   rows (messages_table (db (add_message_to_db "user" "" w).2)) =
     rows (messages_table (db w)) ++
     [MessageRow (seq (messages_table (db w)) + 1) "user" ""]).
Proof.
  intros Hnone. split; [|split; [|split]].
  - unfold chat. by rewrite Hnone, lookup_insert_eq.
  - unfold chat. by rewrite Hnone.
  - intros s. unfold chat. by rewrite lookup_insert_eq.
  - intros H. by rewrite add_message_to_db_ok.
Qed.

End Chat.

Lemma chat_propagates_first_append_failure_witness :
  faults (fresh [Some "disk I/O error"; None]) = Some "disk I/O error" :: [None] ∧
  chat (λ _ _, Ok (Completion "hello" 12 30)) {[ "user_input" := "hi" ]}
       (fresh [Some "disk I/O error"; None]) =
    (Raise (Exn sqlite3_Error "disk I/O error"),
     World (init_db None) [None] [SqlInsertMessage "user" "hi"]).
Proof.
  split; [reflexivity|].
  exact (chat_propagates_first_append_failure (λ _ _, Ok (Completion "hello" 12 30))
           {[ "user_input" := "hi" ]} (fresh [Some "disk I/O error"; None])
           "disk I/O error" [None] eq_refl).
Defined.

Lemma chat_llm_failure_becomes_reply_witness :
  table_ok (messages_table (db (fresh []))) ∧
  healthy 4 (fresh []) ∧
  ∃ w',
    chat (λ _ _, Raise (Exn openai_Error "timeout")) {[ "user_input" := "hi" ]} (fresh []) =
      (Ok {[ "response" := "Error: timeout" ]}, w') ∧
    rows (messages_table (db w')) =
      [MessageRow 1 "user" "hi"; MessageRow 2 "assistant" "Error: timeout"] ∧
    usage_table (db w') = Table [] 0 ∧
    (get_conversation_messages 1 w').1 = Ok [Message "assistant" "Error: timeout"].
Proof.
  assert (table_ok (messages_table (db (fresh [])))) as Hok by (split; constructor).
  assert (healthy 4 (fresh [])) as H by constructor.
  split; [exact Hok|]. split; [exact H|].
  exact (chat_llm_failure_becomes_reply (λ _ _, Raise (Exn openai_Error "timeout"))
           {[ "user_input" := "hi" ]} (fresh []) [Message "user" "hi"]
           (Exn openai_Error "timeout") Hok H eq_refl eq_refl).
Defined.

Lemma chat_recording_failure_replaces_reply_witness :
  (healthy 2 (fresh [None; None; Some "database is locked"]) ∧
   ∃ w',
     chat (λ _ _, Ok (Completion "hello" 12 30)) {[ "user_input" := "hi" ]}
          (fresh [None; None; Some "database is locked"]) =
       (Ok {[ "response" := "Error: database is locked" ]}, w') ∧
     rows (messages_table (db w')) =
       [MessageRow 1 "user" "hi"; MessageRow 2 "assistant" "Error: database is locked"] ∧
     usage_table (db w') = Table [] 0 ∧
     Print "Error generating chat completion: database is locked" ∈ trace w' ∧
     PrintTraceback (Exn sqlite3_Error "database is locked") ∈ trace w') ∧
  (healthy 2 (fresh [None; None; Some "database is locked"; Some "disk I/O error"]) ∧
   ∃ w',
     chat (λ _ _, Ok (Completion "hello" 12 30)) {[ "user_input" := "hi" ]}
          (fresh [None; None; Some "database is locked"; Some "disk I/O error"]) =
       (Raise (Exn sqlite3_Error "disk I/O error"), w') ∧
     rows (messages_table (db w')) = [MessageRow 1 "user" "hi"] ∧
     usage_table (db w') = Table [] 0 ∧
     Print "Error generating chat completion: database is locked" ∈ trace w' ∧
     PrintTraceback (Exn sqlite3_Error "database is locked") ∈ trace w').
Proof.
  assert (healthy 2 (fresh [None; None; Some "database is locked"])) as H
    by (repeat constructor).
  assert (healthy 2 (fresh [None; None; Some "database is locked"; Some "disk I/O error"]))
    as H' by (repeat constructor).
  split.
  - split; [exact H|].
    exact (proj1 (chat_recording_failure_replaces_reply
                    (λ _ _, Ok (Completion "hello" 12 30))
                    {[ "user_input" := "hi" ]} (fresh [None; None; Some "database is locked"])
                    [Message "user" "hi"] (Completion "hello" 12 30)
                    (Exn sqlite3_Error "database is locked")
                    H eq_refl eq_refl eq_refl) (Forall_nil_2 _)).
  - split; [exact H'|].
    exact (proj2 (chat_recording_failure_replaces_reply
                    (λ _ _, Ok (Completion "hello" 12 30))
                    {[ "user_input" := "hi" ]}
                    (fresh [None; None; Some "database is locked"; Some "disk I/O error"])
                    [Message "user" "hi"] (Completion "hello" 12 30)
                    (Exn sqlite3_Error "database is locked")
                    H' eq_refl eq_refl eq_refl) "disk I/O error" [] eq_refl).
Defined.

(** C3, counterexample: GPT-4 answers ["hello"], the INSERT into
    [usage] then fails with "database is locked", and the response of
    [chat] is the error text, not the reply; the error text is also
    what is stored as the assistant message. *)
Lemma chat_recording_failure_loses_reply :
  (chat (λ _ _, Ok (Completion "hello" 12 30)) {[ "user_input" := "hi" ]}
        (fresh [None; None; Some "database is locked"])).1 =
    Ok {[ "response" := "Error: database is locked" ]} ∧
  (chat (λ _ _, Ok (Completion "hello" 12 30)) {[ "user_input" := "hi" ]}
        (fresh [None; None; Some "database is locked"])).1 ≠
    Ok {[ "response" := "hello" ]} ∧
  rows (messages_table (db (chat (λ _ _, Ok (Completion "hello" 12 30))
                                 {[ "user_input" := "hi" ]}
                                 (fresh [None; None; Some "database is locked"])).2)) =
    [MessageRow 1 "user" "hi"; MessageRow 2 "assistant" "Error: database is locked"].
Proof.
  split; [by vm_compute|]. split; [|by vm_compute].
  intros E.
  apply (f_equal (λ res, match res with
                         | Ok m => m !! "response"
                         | Raise _ => None
                         end)) in E.
  vm_compute in E. discriminate E.
Qed.

Lemma chat_without_user_input_witness :
  (∅ : gmap string string) !! "user_input" = None ∧
  chat (λ _ _, Ok (Completion "hello" 12 30)) ∅ (fresh []) =
    chat (λ _ _, Ok (Completion "hello" 12 30)) {[ "user_input" := "" ]} (fresh []) ∧
  (chat (λ _ _, Ok (Completion "hello" 12 30)) ∅ (fresh [])).1 =
    Ok {[ "response" := "hello" ]} ∧
  rows (messages_table (db (chat (λ _ _, Ok (Completion "hello" 12 30)) ∅ (fresh [])).2)) =
    [MessageRow 1 "user" ""; MessageRow 2 "assistant" "hello"].
Proof.
  split; [reflexivity|]. split; [|split; by vm_compute].
  exact (proj1 (chat_without_user_input (λ _ _, Ok (Completion "hello" 12 30)) ∅ (fresh [])
                  eq_refl)).
Defined.

(** ** More on running computations *)

Lemma healthy_cases w : healthy 1 w ∨ ∃ detail rest, faults w = Some detail :: rest.
Proof.
  unfold healthy. destruct (faults w) as [|[detail|] rest]; simpl.
  - left. constructor.
  - right. eauto.
  - left. repeat constructor.
Qed.

Lemma get_conversation_messages_fail n w detail rest :
  faults w = Some detail :: rest →
  get_conversation_messages n w =
    (Raise (Exn sqlite3_Error detail), World (db w) rest (trace w ++ [SqlSelectMessages n])).
Proof.
  intros H. unfold get_conversation_messages.
  by rewrite (bind_raise _ _ _ _ _ (sqlite3_execute_fail _ _ _ _ _ _ H)).
Qed.

(** A window size that is no INTEGER is refused when it is bound. *)
Lemma get_conversation_messages_overflow n w :
  fits_int64 n = false → healthy 1 w →
  get_conversation_messages n w =
    (Raise (Exn OverflowError "Python int too large to convert to SQLite INTEGER"),
     World (db w) (tail (faults w)) (trace w ++ [SqlSelectMessages n])).
Proof.
  intros Hn H. unfold get_conversation_messages.
  assert (forallb fits_int64 [n] = false) as Hint by (simpl; by rewrite Hn).
  by rewrite (bind_raise _ _ _ _ _ (sqlite3_execute_overflow _ _ _ _ H Hint)).
Qed.

Lemma get_usage_summary_fail w detail rest :
  faults w = Some detail :: rest →
  get_usage_summary w =
    (Raise (Exn sqlite3_Error detail), World (db w) rest (trace w ++ [SqlSelectUsage])).
Proof.
  intros H. unfold get_usage_summary.
  by rewrite (bind_raise _ _ _ _ _ (sqlite3_execute_fail _ _ _ _ _ _ H)).
Qed.

(** *** Windows of any table *)

Lemma limit_nonneg {A} n (l : list A) : 0 ≤ n → limit n l = take (Z.to_nat n) l.
Proof. intros Hn. unfold limit. by destruct (Z.ltb_spec n 0) as [?|_]; [lia|]. Qed.

Lemma limit_negative {A} n (l : list A) : n < 0 → limit n l = l.
Proof. intros Hn. unfold limit. by destruct (Z.ltb_spec n 0) as [_|?]; [|lia]. Qed.

Lemma window_rows_suffix n m d :
  0 ≤ n ≤ m → window_rows n d `suffix_of` window_rows m d.
Proof.
  intros Hnm. unfold window_rows. rewrite !limit_nonneg by lia.
  apply suffix_prefix_reverse. rewrite !reverse_involutive.
  replace (Z.to_nat n) with (Z.to_nat n `min` Z.to_nat m)%nat by lia.
  rewrite <-take_take. apply prefix_take.
Qed.

Lemma window_rows_all d :
  unique_ids (rows (messages_table d)) →
  reverse (order_by_id_desc (rows (messages_table d))) ≡ₚ rows (messages_table d) ∧
  StronglySorted older (reverse (order_by_id_desc (rows (messages_table d)))).
Proof.
  intros Hu. split.
  - rewrite reverse_Permutation. apply order_by_id_desc_perm.
  - apply (StronglySorted_reverse (flip older)). by apply order_by_id_desc_strict.
Qed.

Lemma window_rows_add_row role content n d :
  0 ≤ n → table_ok (messages_table d) →
  window_rows (n + 1) (add_row role content d) =
    window_rows n d ++ [MessageRow (seq (messages_table d) + 1) role content].
Proof.
  intros Hn Hok. unfold window_rows. rewrite !limit_nonneg by lia.
  rewrite order_by_id_desc_add_row by done.
  replace (Z.to_nat (n + 1)) with (S (Z.to_nat n)) by lia.
  cbn [take]. by rewrite reverse_cons.
Qed.

(** *** The reads *)

Lemma get_conversation_messages_db n w : db (get_conversation_messages n w).2 = db w.
Proof.
  destruct (healthy_cases w) as [H|(detail & rest & H)].
  - destruct (fits_int64 n) eqn:Hn.
    + by rewrite get_conversation_messages_ok.
    + by rewrite get_conversation_messages_overflow.
  - by rewrite (get_conversation_messages_fail _ _ _ _ H).
Qed.

Lemma get_usage_summary_db w : db (get_usage_summary w).2 = db w.
Proof.
  destruct (healthy_cases w) as [H|(detail & rest & H)].
  - by rewrite get_usage_summary_ok.
  - by rewrite (get_usage_summary_fail _ _ _ H).
Qed.

(** *** Requests in a trace *)

Lemma api_requests_app t1 t2 : api_requests (t1 ++ t2) = api_requests t1 ++ api_requests t2.
Proof. apply omap_app. Qed.

Lemma api_requests_request model messages t :
  api_requests (ApiRequest model messages :: t) = (model, messages) :: api_requests t.
Proof. reflexivity. Qed.

Lemma api_requests_turn role content n model messages :
  api_requests [SqlInsertMessage role content; SqlSelectMessages n;
                ApiRequest model messages] = [(model, messages)].
Proof. reflexivity. Qed.

Lemma api_requests_insert role content t :
  api_requests (SqlInsertMessage role content :: t) = api_requests t.
Proof. reflexivity. Qed.

Lemma api_requests_select n t : api_requests (SqlSelectMessages n :: t) = api_requests t.
Proof. reflexivity. Qed.

(** *** The outcomes of [record_usage] *)

Lemma record_usage_overflow model p c w :
  fits_float p && fits_float c = false →
  record_usage model p c w =
    (Raise (Exn OverflowError "int too large to convert to float"), w).
Proof.
  intros H. unfold record_usage. destruct (fits_float p) eqn:Hp.
  - rewrite (bind_ok _ _ _ _ _ (truediv_ok p _ w Hp)).
    by rewrite (bind_raise _ _ _ _ _ (truediv_overflow c _ w H)).
  - by rewrite (bind_raise _ _ _ _ _ (truediv_overflow p _ w Hp)).
Qed.

(** Whatever [record_usage] does, it sends no request to OpenAI and
    leaves [messages] alone. *)
Lemma record_usage_frame model p c w :
  ∃ evs, trace (record_usage model p c w).2 = trace w ++ evs ∧
         api_requests evs = [] ∧
         messages_table (db (record_usage model p c w).2) = messages_table (db w).
Proof.
  destruct (fits_float p && fits_float c) eqn:Hfit.
  - apply andb_true_iff in Hfit as [Hp Hc].
    destruct (healthy_cases w) as [H|(detail & rest & H)].
    + destruct (fits_int64 p && fits_int64 c && fits_int64 (p + c)) eqn:Hint.
      * rewrite record_usage_ok by done. eexists. split; [done|]. done.
      * rewrite record_usage_not_integer by done. eexists. split; [done|]. done.
    + rewrite (record_usage_fail _ _ _ _ _ _ Hp Hc H). eexists. split; [done|]. done.
  - rewrite record_usage_overflow by done. exists []. by rewrite app_nil_r.
Qed.

(** *** The outcomes of [generate_chat_completion] and of [chat] *)

Section Outcomes.

Variable create : string → list message → result completion.

(** [generate_chat_completion] returns in every case, after one request
    to GPT-4: the reply, with the usage recorded, or the text of the
    error that was caught, with nothing recorded. *)
Lemma generate_chat_completion_cases messages w :
  ∃ reply w' evs,
    generate_chat_completion create messages w = (Ok reply, w') ∧
    trace w' = trace w ++ ApiRequest "gpt-4" messages :: evs ∧
    api_requests evs = [] ∧
    messages_table (db w') = messages_table (db w) ∧
    ((∃ r, create "gpt-4" messages = Ok r ∧ reply = reply_content r ∧
           db w' = add_usage_row "gpt-4" (usage_prompt_tokens r) (usage_completion_tokens r)
                                 (db w)) ∨
     (∃ e, reply = "Error: " +:+ exn_str e ∧ db w' = db w ∧
           Print ("Error generating chat completion: " +:+ exn_str e) ∈ evs ∧
           (create "gpt-4" messages = Raise e ∨
            ∃ r, create "gpt-4" messages = Ok r ∧
                 exn_type e ≠ openai_Error))).
Proof.
  destruct (create "gpt-4" messages) as [r|e] eqn:Hcreate.
  - set (w1 := (openai_ChatCompletion_create create "gpt-4" messages w).2).
    assert (trace w1 = trace w ++ [ApiRequest "gpt-4" messages]) as Et by done.
    assert (db w1 = db w) as Ed by done.
    destruct (record_usage "gpt-4" (usage_prompt_tokens r) (usage_completion_tokens r) w1)
      as [[[]|e] w2] eqn:Hrec.
    + rewrite (generate_chat_completion_returns create _ r _ _ Hcreate Hrec).
      destruct (record_usage_frame "gpt-4" (usage_prompt_tokens r)
                  (usage_completion_tokens r) w1) as (evs & Ht & Hevs & Hm).
      rewrite Hrec in Ht, Hm. cbn [snd] in Ht, Hm.
      exists (reply_content r), w2, evs. split; [done|].
      split; [by rewrite Ht, Et, <-app_assoc|]. split; [done|].
      split; [by rewrite Hm, Ed|].
      left. exists r. split; [done|]. split; [done|].
      by rewrite (record_usage_returns _ _ _ _ _ Hrec), Ed.
    + rewrite (generate_chat_completion_recording_raises create _ r e _ _ Hcreate Hrec).
      destruct (record_usage_frame "gpt-4" (usage_prompt_tokens r)
                  (usage_completion_tokens r) w1) as (evs & Ht & Hevs & Hm).
      destruct (record_usage_cases "gpt-4" (usage_prompt_tokens r)
                  (usage_completion_tokens r) w1) as [[Hok _]|(e' & He' & Hty & Hdb)].
      { by rewrite Hrec in Hok. }
      rewrite Hrec in Ht, Hm, He', Hdb. cbn [fst snd] in Ht, Hm, He', Hdb.
      injection He' as <-.
      eexists _, _, (evs ++ [Print ("Error generating chat completion: " +:+ exn_str e);
                             PrintTraceback e]).
      split; [done|]. cbn [trace db].
      split; [by rewrite Ht, Et, <-!app_assoc|].
      split; [by rewrite api_requests_app, Hevs|].
      split; [by rewrite Hm, Ed|]. right. exists e. split; [done|].
      split; [by rewrite Hdb, Ed|].
      split; [apply elem_of_app; right; by left|]. right. exists r. split; [done|].
      destruct Hty as [Hty|Hty]; by rewrite Hty.
  - rewrite (generate_chat_completion_api_raises create _ e _ Hcreate).
    eexists _, _, [Print ("Error generating chat completion: " +:+ exn_str e);
                   PrintTraceback e].
    split; [done|]. split; [done|]. split; [done|]. split; [done|].
    right. exists e. split; [done|]. split; [done|]. split; [by left|]. by left.
Qed.

(** The turn when the first append fails. *)
Lemma chat_first_append_fails data w detail rest :
  faults w = Some detail :: rest →
  chat create data w =
    (Raise (Exn sqlite3_Error detail),
     World (db w) rest
           (trace w ++ [SqlInsertMessage "user" (default "" (data !! "user_input"))])).
Proof.
  intros H. unfold chat.
  by rewrite (bind_raise _ _ _ _ _ (add_message_to_db_fail _ _ _ _ _ H)).
Qed.

(** The turn when the read of the window fails. *)
Lemma chat_read_fails data w detail rest :
  healthy 1 w → tail (faults w) = Some detail :: rest →
  chat create data w =
    (Raise (Exn sqlite3_Error detail),
     World (add_row "user" (default "" (data !! "user_input")) (db w)) rest
           (trace w ++ [SqlInsertMessage "user" (default "" (data !! "user_input"));
                        SqlSelectMessages 10])).
Proof.
  intros H Hf. unfold chat.
  rewrite (bind_ok _ _ _ _ _ (add_message_to_db_ok _ _ _ H)).
  rewrite (bind_raise _ _ _ _ _
             (get_conversation_messages_fail 10 (World _ (tail (faults w)) _) detail rest Hf)).
  cbn [db trace]. by rewrite <-app_assoc.
Qed.

(** The four ways a turn can go: the first append fails; the read of
    the window fails; the append of the assistant message fails; the
    turn returns. *)
Lemma chat_cases data w :
  let user_input := default "" (data !! "user_input") in
  let d1 := add_row "user" user_input (db w) in
  let history := dict_of_row <$> window_rows 10 d1 in
  (∃ detail rest,
     chat create data w =
       (Raise (Exn sqlite3_Error detail),
        World (db w) rest (trace w ++ [SqlInsertMessage "user" user_input]))) ∨
  (∃ detail rest,
     chat create data w =
       (Raise (Exn sqlite3_Error detail),
        World d1 rest (trace w ++ [SqlInsertMessage "user" user_input;
                                   SqlSelectMessages 10]))) ∨
  (∃ reply w3 evs,
     (generate_chat_completion create history
        (World d1 (tail (tail (faults w)))
               (trace w ++ [SqlInsertMessage "user" user_input; SqlSelectMessages 10]))).1 =
       Ok reply ∧
     trace w3 = trace w ++ [SqlInsertMessage "user" user_input; SqlSelectMessages 10;
                            ApiRequest "gpt-4" history] ++ evs ∧
     api_requests evs = [] ∧
     messages_table (db w3) = messages_table d1 ∧
     (db w3 = d1 ∨
      ∃ r, create "gpt-4" history = Ok r ∧ reply = reply_content r ∧
           db w3 = add_usage_row "gpt-4" (usage_prompt_tokens r)
                                 (usage_completion_tokens r) d1) ∧
     ((∃ detail rest,
         chat create data w =
           (Raise (Exn sqlite3_Error detail),
            World (db w3) rest (trace w3 ++ [SqlInsertMessage "assistant" reply]))) ∨
      chat create data w =
        (Ok {[ "response" := reply ]},
         World (add_row "assistant" reply (db w3)) (tail (faults w3))
               (trace w3 ++ [SqlInsertMessage "assistant" reply])))).
Proof.
  intros user_input d1 history.
  destruct (healthy_cases w) as [H1|(detail & rest & Hf)].
  2:{ left. exists detail, rest. by apply chat_first_append_fails. }
  right.
  destruct (healthy_cases (World d1 (tail (faults w)) [])) as [H2|(detail & rest & Hf)].
  2:{ left. exists detail, rest. by apply chat_read_fails. }
  right.
  assert (healthy 2 w) as H.
  { unfold healthy in *. cbn [faults] in H2. destruct (faults w) as [|o fs]; [constructor|].
    cbn [take tail] in *. apply Forall_cons in H1 as [-> _]. by constructor. }
  destruct (generate_chat_completion_cases history
              (World d1 (tail (tail (faults w)))
                     (trace w ++ [SqlInsertMessage "user" user_input; SqlSelectMessages 10])))
    as (reply & w3 & evs & Hgen & Ht & Hevs & Hm & Hdb).
  exists reply, w3, evs. rewrite Hgen. split; [done|].
  split; [rewrite Ht; cbn [trace]; by rewrite <-app_assoc|].
  split; [done|]. split; [done|]. split.
  - destruct Hdb as [(r & Hr & -> & Hdb)|(e & _ & Hdb & _)]; [right; by exists r|by left].
  - destruct (healthy_cases w3) as [H3|(detail & rest & Hf)].
    + right. by apply chat_steps.
    + left. exists detail, rest. by apply chat_last_append_fails.
Qed.

End Outcomes.

Section Success.

Variable create : string → list message → result completion.

(** [generate_chat_completion] when GPT-4 answers and the usage is
    recorded. *)
Lemma generate_chat_completion_ok messages r w :
  create "gpt-4" messages = Ok r →
  fits_int64 (usage_prompt_tokens r) && fits_int64 (usage_completion_tokens r) &&
    fits_int64 (usage_prompt_tokens r + usage_completion_tokens r) = true →
  healthy 1 w →
  generate_chat_completion create messages w =
    (Ok (reply_content r),
     World (add_usage_row "gpt-4" (usage_prompt_tokens r) (usage_completion_tokens r) (db w))
           (tail (faults w))
           (trace w ++ [ApiRequest "gpt-4" messages;
                        SqlInsertUsage "gpt-4" (usage_prompt_tokens r)
                          (usage_completion_tokens r)
                          (usage_prompt_tokens r + usage_completion_tokens r)
                          (cost_at GPT4_PROMPT_COST_PER_1K GPT4_COMPLETION_COST_PER_1K
                                   (usage_prompt_tokens r) (usage_completion_tokens r))])).
Proof.
  intros Hcreate Hint H.
  apply (generate_chat_completion_returns create _ r); [done|].
  rewrite openai_ChatCompletion_create_eq. cbn [snd].
  rewrite record_usage_ok by done. cbn [db faults trace]. by rewrite <-app_assoc.
Qed.

End Success.

Lemma tail_drop {A} (n : nat) (l : list A) : tail (drop n l) = drop (S n) l.
Proof.
  revert l. induction n as [|n IH]; intros [|x l]; simpl; done.
Qed.

(** The history [chat] reads after storing the user message: the nine
    most recent messages from before, and the user message. *)
Lemma chat_history role content d :
  table_ok (messages_table d) →
  dict_of_row <$> window_rows 10 (add_row role content d) =
    (dict_of_row <$> window_rows 9 d) ++ [Message role content].
Proof.
  intros Hok. pose proof (window_rows_add_row role content 9 d ltac:(lia) Hok) as E.
  change (9 + 1) with 10 in E. by rewrite E, fmap_app.
Qed.

(** *** The summary of any ledger *)

#[local] Instance by_rowid_trans : Transitive by_rowid.
Proof. unfold by_rowid. intros a b c ??. lia. Qed.

#[local] Instance by_rowid_total : Total by_rowid.
Proof. unfold by_rowid. intros a b. lia. Qed.

Lemma table_scan_perm l : table_scan l ≡ₚ l.
Proof. apply merge_sort_Permutation. Qed.

Lemma foldl_add_acc (l : list Z) acc : foldl Z.add acc l = acc + foldl Z.add 0 l.
Proof.
  revert acc. induction l as [|x l IH]; intros acc; cbn [foldl]; [lia|].
  rewrite (IH (acc + x)), (IH (0 + x)). lia.
Qed.

Lemma foldl_add_perm (l l' : list Z) : l ≡ₚ l' → foldl Z.add 0 l = foldl Z.add 0 l'.
Proof.
  induction 1 as [|x l l' _ IH|x y l|l l' l'' _ IH1 _ IH2]; cbn [foldl].
  - done.
  - by rewrite (foldl_add_acc l), (foldl_add_acc l'), IH.
  - f_equal. lia.
  - by rewrite IH1.
Qed.

(** The mathematical sum of a column does not depend on the scan. *)
Lemma column_total_scan column d :
  foldl Z.add 0 (column <$> table_scan (rows (usage_table d))) = column_total column d.
Proof. unfold column_total. apply foldl_add_perm. by rewrite table_scan_perm. Qed.

Lemma running_sum_Some acc l s : running_sum acc l = Some s → s = foldl Z.add acc l.
Proof.
  revert acc. induction l as [|x l IH]; intros acc; simpl; [by intros [= <-]|].
  destruct (fits_int64 (acc + x)); [apply IH|done].
Qed.

(** Non-negative numbers whose sum is an INTEGER are summed without
    overflow. *)
Lemma running_sum_nonneg acc l :
  0 ≤ acc → Forall (λ x, 0 ≤ x) l → foldl Z.add acc l < 2 ^ 63 →
  running_sum acc l = Some (foldl Z.add acc l).
Proof.
  revert acc. induction l as [|x l IH]; intros acc Hacc Hl Hsum; simpl; [done|].
  apply Forall_cons in Hl as [Hx Hl]. simpl in Hsum.
  assert (0 ≤ foldl Z.add 0 l) as Hrest.
  { clear -Hl. induction Hl as [|y l Hy _ IH]; simpl; [done|].
    rewrite foldl_add_acc. lia. }
  rewrite foldl_add_acc in Hsum.
  rewrite fits_int64_range by lia. apply IH; [lia|done|].
  rewrite foldl_add_acc. lia.
Qed.

Lemma sum_integer_Done l v :
  sum_integer l = Done v → (if truthy v then v else PyInt 0) = PyInt (foldl Z.add 0 l).
Proof.
  destruct l as [|x l]; [by intros [= <-]|]. unfold sum_integer.
  destruct (running_sum 0 (x :: l)) as [s|] eqn:Hs; [|done].
  intros [= <-]. apply running_sum_Some in Hs as ->. cbn [truthy].
  by destruct (Z.eqb_spec (foldl Z.add 0 (x :: l)) 0) as [->|].
Qed.

Lemma sum_integer_cases l :
  (∃ v, sum_integer l = Done v) ∨ sum_integer l = Failed "integer overflow".
Proof.
  destruct l as [|x l]; [left; by eexists|]. unfold sum_integer.
  destruct (running_sum 0 (x :: l)); [left; by eexists|by right].
Qed.

Lemma sum_real_total l :
  (if truthy (sum_real l) then sum_real l else PyInt 0) =
    if is_zero (foldl fadd (S754_zero false) l)
    then PyInt 0 else PyFloat (foldl fadd (S754_zero false) l).
Proof.
  destruct l as [|x l]; [done|]. unfold sum_real. cbn [truthy].
  by destruct (is_zero _).
Qed.

(** The summary of a file: the totals, or the overflow of a [SUM]. *)
Lemma summary_of_eq d :
  summary_of d =
    match select_sums d with
    | Done _ =>
        Ok (UsageSummary (PyInt (column_total use_prompt_tokens d))
                         (PyInt (column_total use_completion_tokens d))
                         (if is_zero (cost_total d) then PyInt 0
                          else PyFloat (float_round (cost_total d) 5)))
    | Failed _ => Raise (Exn sqlite3_Error "integer overflow")
    end.
Proof.
  unfold summary_of, get_usage_summary.
  assert (healthy 1 (World d [] [])) as H0 by constructor.
  destruct (select_sums d) as [[[row0 row1] row2]|detail] eqn:Hsums.
  - rewrite (bind_ok _ _ _ _ _
               (sqlite3_execute_ok _ [] (λ d, (select_sums d, d)) _ _ _ H0 eq_refl
                  (f_equal (λ r, (r, d)) Hsums))).
    unfold select_sums in Hsums.
    destruct (sum_integer (use_prompt_tokens <$> _)) as [a|] eqn:Ha; [|done].
    destruct (sum_integer (use_completion_tokens <$> _)) as [b|] eqn:Hb; [|done].
    injection Hsums as <- <- <-.
    rewrite (sum_integer_Done _ _ Ha), (sum_integer_Done _ _ Hb), sum_real_total.
    rewrite !column_total_scan. fold (cost_total d).
    unfold bind, round, ret. by destruct (is_zero (cost_total d)).
  - rewrite (bind_raise _ _ _ _ _
               (sqlite3_execute_refused _ [] (λ d, (select_sums d, d)) _ _ _ H0 eq_refl
                  (f_equal (λ r, (r, d)) Hsums))).
    unfold select_sums in Hsums.
    destruct (sum_integer (use_prompt_tokens <$> _)) as [a|] eqn:Ha;
      [destruct (sum_integer (use_completion_tokens <$> _)) as [b|] eqn:Hb|].
    + done.
    + by injection Hsums as <-.
    + by injection Hsums as <-.
Qed.

Lemma summary_of_returns d s :
  summary_of d = Ok s →
  s = UsageSummary (PyInt (column_total use_prompt_tokens d))
                   (PyInt (column_total use_completion_tokens d))
                   (if is_zero (cost_total d) then PyInt 0
                    else PyFloat (float_round (cost_total d) 5)).
Proof. rewrite summary_of_eq. destruct (select_sums d); [by intros [= <-]|done]. Qed.

(** Non-negative counts whose totals are INTEGERs are summed. *)
Lemma select_sums_Done d :
  Forall (λ u, 0 ≤ use_prompt_tokens u ∧ 0 ≤ use_completion_tokens u)
         (rows (usage_table d)) →
  column_total use_prompt_tokens d < 2 ^ 63 →
  column_total use_completion_tokens d < 2 ^ 63 →
  ∃ row, select_sums d = Done row.
Proof.
  intros Hrows Hp Hc. unfold select_sums.
  assert (∀ column : usage_row → Z,
            Forall (λ u, 0 ≤ column u) (rows (usage_table d)) →
            column_total column d < 2 ^ 63 →
            ∃ v, sum_integer (column <$> table_scan (rows (usage_table d))) = Done v) as Hsum.
  { intros column Hnonneg Htotal. rewrite <-column_total_scan in Htotal.
    assert (Forall (λ x, 0 ≤ x) (column <$> table_scan (rows (usage_table d)))) as Hl.
    { apply Forall_fmap. by rewrite table_scan_perm. }
    unfold sum_integer.
    destruct (column <$> table_scan (rows (usage_table d))) as [|x l] eqn:E;
      [by eexists|].
    rewrite running_sum_nonneg by (done || lia). by eexists. }
  destruct (Hsum use_prompt_tokens) as [a ->];
    [eapply Forall_impl; [done|]; by intros u [? ?]|done|].
  destruct (Hsum use_completion_tokens) as [b ->];
    [eapply Forall_impl; [done|]; by intros u [? ?]|done|].
  by eexists.
Qed.

Lemma get_usage_summary_returns w s w' :
  get_usage_summary w = (Ok s, w') → summary_of (db w) = Ok s ∧ db w' = db w.
Proof.
  intros E. destruct (healthy_cases w) as [H|(detail & rest & H)].
  - rewrite get_usage_summary_ok in E by done. by injection E as -> <-.
  - by rewrite (get_usage_summary_fail _ _ _ H) in E.
Qed.

Lemma column_total_add_usage_row column model p c d :
  column_total column (add_usage_row model p c d) =
    column_total column d +
    column (UsageRow (seq (usage_table d) + 1) model p c (p + c)
                     (cost_at GPT4_PROMPT_COST_PER_1K GPT4_COMPLETION_COST_PER_1K p c)).
Proof.
  unfold column_total. cbn [add_usage_row usage_table insert rows].
  by rewrite fmap_app, foldl_app.
Qed.

(** *** Steps of the program *)

Lemma step_invariant (P : database → Prop) w w' :
  (∀ role content d, P d → P (add_row role content d)) →
  (∀ model p c d, P d → P (add_usage_row model p c d)) →
  step w w' → P (db w) → P (db w').
Proof.
  intros Hrow Husage Hstep HP. destruct Hstep.
  - by apply preserves_chat.
  - by apply preserves_get_usage_summary.
  - by apply preserves_add_message_to_db.
  - by apply preserves_get_conversation_messages.
  - by apply preserves_record_usage.
  - done.
Qed.

Lemma extends_add_row d0 role content d : extends d0 d → extends d0 (add_row role content d).
Proof.
  unfold extends. intros (Hm & Hu & Hsm & Hsu). cbn [add_row messages_table usage_table insert rows seq].
  split; [by apply prefix_app_r|]. split; [done|]. split; [lia|done].
Qed.

Lemma extends_add_usage_row d0 model p c d :
  extends d0 d → extends d0 (add_usage_row model p c d).
Proof.
  unfold extends. intros (Hm & Hu & Hsm & Hsu).
  cbn [add_usage_row messages_table usage_table insert rows seq].
  split; [done|]. split; [by apply prefix_app_r|]. split; [done|lia].
Qed.

Lemma seqZ_snoc m n : 0 ≤ n → seqZ m (n + 1) = seqZ m n ++ [n + m].
Proof. intros Hn. rewrite seqZ_app by lia. f_equal. unfold seqZ. simpl. f_equal. lia. Qed.

Lemma consecutive_ids_add_row role content d :
  consecutive_ids d → consecutive_ids (add_row role content d).
Proof.
  unfold consecutive_ids. intros (Hm & Hsm & Hu & Hsu).
  cbn [add_row messages_table usage_table insert rows seq].
  split; [|split; [lia|done]].
  by rewrite fmap_app, Hm, seqZ_snoc.
Qed.

Lemma consecutive_ids_add_usage_row model p c d :
  consecutive_ids d → consecutive_ids (add_usage_row model p c d).
Proof.
  unfold consecutive_ids. intros (Hm & Hsm & Hu & Hsu).
  cbn [add_usage_row messages_table usage_table insert rows seq].
  split; [done|]. split; [done|]. split; [|lia].
  by rewrite fmap_app, Hu, seqZ_snoc.
Qed.

Lemma window_rows_messages_table n d d' :
  messages_table d = messages_table d' → window_rows n d = window_rows n d'.
Proof. unfold window_rows. by intros ->. Qed.

Section Requests.

Variable create : string → list message → result completion.

(** The request of a turn whose first two statements go through. *)
Lemma chat_request data w :
  healthy 2 w →
  api_requests (trace (chat create data w).2) =
    api_requests (trace w) ++
    [("gpt-4", dict_of_row <$>
                 window_rows 10 (add_row "user" (default "" (data !! "user_input")) (db w)))].
Proof.
  intros H.
  destruct (generate_chat_completion_cases create
              (dict_of_row <$> window_rows 10
                 (add_row "user" (default "" (data !! "user_input")) (db w)))
              (World (add_row "user" (default "" (data !! "user_input")) (db w))
                     (tail (tail (faults w)))
                     (trace w ++ [SqlInsertMessage "user" (default "" (data !! "user_input"));
                                  SqlSelectMessages 10])))
    as (reply & w3 & evs & Hgen & Ht & Hevs & _).
  assert (trace (chat create data w).2 = trace w3 ++ [SqlInsertMessage "assistant" reply])
    as ->.
  { destruct (healthy_cases w3) as [H3|(detail & rest & Hf)].
    - by rewrite (chat_steps create data w reply w3 H Hgen H3).
    - by rewrite (chat_last_append_fails create data w reply w3 detail rest H Hgen Hf). }
  rewrite Ht. cbn [trace].
  by rewrite !api_requests_app, api_requests_request, Hevs, !api_requests_insert,
    api_requests_select, !app_nil_r.
Qed.

(** What a turn that returns has stored. *)
Lemma chat_returns data w response w' :
  chat create data w = (Ok response, w') →
  ∃ reply w3,
    response = {[ "response" := reply ]} ∧
    db w' = add_row "assistant" reply (db w3) ∧
    messages_table (db w3) =
      messages_table (add_row "user" (default "" (data !! "user_input")) (db w)) ∧
    (usage_table (db w3) = usage_table (db w) ∨
     ∃ r, usage_table (db w3) =
            usage_table (add_usage_row "gpt-4" (usage_prompt_tokens r)
                                       (usage_completion_tokens r) (db w))).
Proof.
  intros Hchat.
  destruct (chat_cases create data w)
    as [(detail & rest & E)|[(detail & rest & E)|
        (reply & w3 & evs & _ & _ & _ & Hm & Hdb & [(detail & rest & E)|E])]];
    rewrite E in Hchat; try done.
  injection Hchat as <- <-. exists reply, w3. split; [done|]. split; [done|].
  split; [done|].
  destruct Hdb as [->|(r & _ & _ & ->)]; [by left|right]. by exists r.
Qed.

End Requests.

(** *** Signs of float results *)

Lemma shr_1_nonneg mrs : 0 ≤ shr_m mrs → 0 ≤ shr_m (shr_1 mrs).
Proof.
  destruct mrs as [m r s]. simpl. intros Hm.
  destruct m as [|[p|p|]|p]; simpl; lia.
Qed.

Lemma iter_pos_shr_1_nonneg n mrs : 0 ≤ shr_m mrs → 0 ≤ shr_m (SpecFloat.iter_pos shr_1 n mrs).
Proof.
  revert mrs. induction n as [n IH|n IH|]; intros mrs Hm; simpl.
  - apply IH, IH. by apply shr_1_nonneg.
  - by apply IH, IH.
  - by apply shr_1_nonneg.
Qed.

Lemma shr_nonneg mrs e n : 0 ≤ shr_m mrs → 0 ≤ shr_m (shr mrs e n).1.
Proof.
  intros Hm. unfold shr. destruct n; simpl; [done| |done].
  by apply iter_pos_shr_1_nonneg.
Qed.

Lemma shr_fexp_nonneg m e l : 0 ≤ m → 0 ≤ shr_m (shr_fexp prec emax m e l).1.
Proof.
  intros Hm. unfold shr_fexp. apply shr_nonneg. by destruct l as [|[]].
Qed.

Lemma round_nearest_even_nonneg m l : 0 ≤ m → 0 ≤ round_nearest_even m l.
Proof.
  intros Hm. unfold round_nearest_even. destruct l as [|[]]; try lia.
  destruct (Z.even m); lia.
Qed.

Lemma binary_round_aux_sign s m e l :
  0 ≤ m → nonnegative (binary_round_aux prec emax s m e l) = negb s.
Proof.
  intros Hm. unfold binary_round_aux.
  pose proof (shr_fexp_nonneg m e l Hm) as H1.
  destruct (shr_fexp prec emax m e l) as [mrs' e']. simpl in H1.
  pose proof (shr_fexp_nonneg (round_nearest_even (shr_m mrs') (loc_of_shr_record mrs'))
                e' loc_Exact (round_nearest_even_nonneg _ _ H1)) as H2.
  destruct (shr_fexp prec emax _ e' loc_Exact) as [mrs'' e'']. simpl in H2.
  destruct (shr_m mrs'') as [|p|p]; [done| |lia].
  by destruct (e'' <=? emax - prec).
Qed.

Lemma binary_normalize_sign m e :
  0 ≤ m → nonnegative (binary_normalize prec emax m e false) = true.
Proof.
  intros Hm. destruct m as [|p|p]; [done| |lia].
  unfold binary_normalize, binary_round.
  destruct (shl_align p e _) as [mz ez]. by rewrite binary_round_aux_sign.
Qed.

Lemma nearest_float_nonnegative z : 0 ≤ z → nonnegative (nearest_float z) = true.
Proof. apply binary_normalize_sign. Qed.

Lemma SFdiv_core_binary_nonneg m1 e1 m2 e2 :
  0 ≤ (SFdiv_core_binary prec emax (Z.pos m1) e1 (Z.pos m2) e2).1.1.
Proof.
  unfold SFdiv_core_binary.
  set (s := e1 - e2 - _).
  set (m' := match s with 0 => Z.pos m1 | Z.pos _ => Z.shiftl (Z.pos m1) s | Z.neg _ => 0 end).
  assert (0 ≤ m') as Hm'.
  { unfold m'. destruct s; [lia| |lia]. by apply Z.shiftl_nonneg. }
  pose proof (Z.div_pos m' (Z.pos m2) Hm' ltac:(lia)) as Hq.
  unfold Z.div in Hq. by destruct (Z.div_eucl m' (Z.pos m2)) as [q r].
Qed.

Lemma fdiv_finite_nonnegative mx ex my ey :
  nonnegative (fdiv (S754_finite false mx ex) (S754_finite false my ey)) = true.
Proof.
  unfold fdiv, SFdiv.
  pose proof (SFdiv_core_binary_nonneg mx ex my ey) as H.
  destruct (SFdiv_core_binary prec emax (Z.pos mx) ex (Z.pos my) ey) as [[mz ez] lz].
  by rewrite binary_round_aux_sign.
Qed.

(** Dividing by a positive finite float keeps a float nonnegative. *)
Lemma fdiv_nonnegative a m e :
  nonnegative a = true → nonnegative (fdiv a (S754_finite false m e)) = true.
Proof.
  destruct a as [[]|[]| |[] mx ex]; try done. intros _. apply fdiv_finite_nonnegative.
Qed.

(** Multiplying by a positive finite float keeps a float nonnegative. *)
Lemma fmul_nonnegative a m e :
  nonnegative a = true → nonnegative (fmul a (S754_finite false m e)) = true.
Proof.
  destruct a as [[]|[]| |[] mx ex]; try done. intros _.
  unfold fmul, SFmul. by rewrite binary_round_aux_sign.
Qed.

Lemma fadd_nonnegative a b :
  nonnegative a = true → nonnegative b = true → nonnegative (fadd a b) = true.
Proof.
  destruct a as [[]|[]| |[] mx ex]; try done;
    destruct b as [[]|[]| |[] my ey]; try done.
  intros _ _. unfold fadd, SFadd. apply binary_normalize_sign. simpl. lia.
Qed.

Lemma cost_at_nonnegative p c :
  0 ≤ p → 0 ≤ c →
  nonnegative (cost_at GPT4_PROMPT_COST_PER_1K GPT4_COMPLETION_COST_PER_1K p c) = true.
Proof.
  intros Hp Hc. unfold cost_at.
  assert (∃ m e, literal 1000 1 = S754_finite false m e) as (m & e & ->)
    by (vm_compute; eauto).
  assert (∃ m e, GPT4_PROMPT_COST_PER_1K = S754_finite false m e) as (mp & ep & ->)
    by (vm_compute; eauto).
  assert (∃ m e, GPT4_COMPLETION_COST_PER_1K = S754_finite false m e) as (mc & ec & ->)
    by (vm_compute; eauto).
  apply fadd_nonnegative; apply fmul_nonnegative, fdiv_nonnegative;
    by apply nearest_float_nonnegative.
Qed.

Lemma foldl_fadd_nonnegative l acc :
  nonnegative acc = true → Forall (λ f, nonnegative f = true) l →
  nonnegative (foldl fadd acc l) = true.
Proof.
  revert acc. induction l as [|x l IH]; intros acc Hacc Hl; simpl; [done|].
  apply Forall_cons in Hl as [Hx Hl]. apply IH; [|done]. by apply fadd_nonnegative.
Qed.

Lemma float_round_nonnegative x n :
  nonnegative x = true → nonnegative (float_round x n) = true.
Proof.
  destruct x as [[]|[]| |[] m e]; try done. intros _. unfold float_round.
  destruct (if 0 <=? e then _ else _) as [|q|q]; try done.
  pose proof (nearest_float_nonnegative (10 ^ Z.of_nat n) ltac:(lia)) as H.
  destruct (nearest_float (10 ^ Z.of_nat n)) as [[]|[]| |[] my ey]; try done.
  apply fdiv_finite_nonnegative.
Qed.

(** *** Ints that convert to [float] *)

Lemma digits2_pos_iter_xO p n :
  digits2_pos (Pos.iter xO p n) = (digits2_pos p + n)%positive.
Proof.
  induction n as [|n IH] using Pos.peano_ind.
  - simpl. lia.
  - rewrite Pos.iter_succ. simpl. rewrite IH. lia.
Qed.

(** A mantissa of 53 bits with an exponent in range is not rounded. *)
Lemma binary_round_aux_canonical s m e :
  Z.pos (digits2_pos m) = 53 → -1074 ≤ e ≤ 971 →
  binary_round_aux prec emax s (Z.pos m) e loc_Exact = S754_finite s m e.
Proof.
  intros Hd He.
  assert (shr_fexp prec emax (Z.pos m) e loc_Exact =
          (Build_shr_record (Z.pos m) false false, e)) as Hshr.
  { unfold shr_fexp, fexp, SpecFloat.emin, prec, emax, Zdigits2. rewrite Hd.
    replace (Z.max (53 + e - 53) (3 - 1024 - 53) - e) with 0 by lia. done. }
  unfold binary_round_aux. rewrite Hshr. cbn [shr_m loc_of_shr_record round_nearest_even].
  rewrite Hshr. cbn [shr_m].
  destruct (Z.leb_spec e (emax - prec)) as [|Hgt]; [done|]. unfold emax, prec in Hgt. lia.
Qed.

(** An [int] below [2 ^ 53] in absolute value is a [float]. *)
Lemma nearest_float_small z :
  - 2 ^ 53 < z < 2 ^ 53 →
  z = 0 ∧ nearest_float z = S754_zero false ∨
  ∃ m e, nearest_float z = S754_finite (z <? 0) m e.
Proof.
  intros Hz. unfold nearest_float, binary_normalize.
  destruct z as [|p|p]; [by left|right..].
  all: assert (Z.pos (digits2_pos p) ≤ 53) as Hd by (apply digits2_pos_bound; lia).
  all: unfold binary_round, shl_align, fexp, SpecFloat.emin, prec, emax.
  all: set (d := digits2_pos p) in *.
  all: replace (Z.max (Z.pos d + 0 - 53) (3 - 1024 - 53) - 0) with (Z.pos d - 53) by lia.
  all: replace (Z.max (Z.pos d + 0 - 53) (3 - 1024 - 53)) with (Z.pos d - 53) by lia.
  all: destruct (Z.pos d - 53) as [|k|k] eqn:Ek; [|lia|].
  all: eexists _, _; apply binary_round_aux_canonical;
    rewrite ?digits2_pos_iter_xO; fold d; lia.
Qed.

Lemma fits_float_small z : - 2 ^ 53 < z < 2 ^ 53 → fits_float z = true.
Proof.
  intros Hz. unfold fits_float.
  by destruct (nearest_float_small z Hz) as [[_ ->]|(m & e & ->)].
Qed.

(** ** Further properties of the message store *)

(** X1. The bounds of the window size.  [get_conversation_messages(0)]
    returns the empty list.  A negative [limit] is no limit in SQLite:
    for [- 2 ^ 63 <= n < 0], [get_conversation_messages(n)] returns
    every stored message, oldest first, whatever the physical order of
    the rows.  A [limit] that is no INTEGER ([n < - 2 ^ 63] or
    [n >= 2 ^ 63]) is refused when it is bound: the call raises
    [OverflowError] and no row is read. *)
Theorem window_size_bounds :
  (∀ w : world, healthy 1 w → (get_conversation_messages 0 w).1 = Ok []) ∧
  (∀ (n : Z) (w : world),
     - 2 ^ 63 ≤ n < 0 → unique_ids (rows (messages_table (db w))) → healthy 1 w →
     ∃ every,
       (get_conversation_messages n w).1 = Ok (dict_of_row <$> every) ∧
       every ≡ₚ rows (messages_table (db w)) ∧
       StronglySorted older every) ∧
  (∀ (n : Z) (w : world),
     n < - 2 ^ 63 ∨ 2 ^ 63 ≤ n → healthy 1 w →
     get_conversation_messages n w =
       (Raise (Exn OverflowError "Python int too large to convert to SQLite INTEGER"),
        World (db w) (tail (faults w)) (trace w ++ [SqlSelectMessages n]))).
Proof.
  split; [|split].
  - intros w H. by rewrite get_conversation_messages_ok.
  - intros n w Hn Hu H. eexists. split; [|by apply window_rows_all].
    rewrite get_conversation_messages_ok by (done || (apply fits_int64_range; lia)).
    unfold window_rows. by rewrite limit_negative by lia.
  - intros n w Hn H. apply get_conversation_messages_overflow; [|done].
    destruct (fits_int64 n) eqn:E; [|done]. apply fits_int64_spec in E. lia.
Qed.

Lemma window_size_bounds_witness :
  (healthy 1 (World (Database (Table [MessageRow 3 "user" "c"; MessageRow 1 "user" "a";
                                      MessageRow 2 "assistant" "b"] 3)
                             (Table [] 0)) [] []) ∧
   (get_conversation_messages 0
      (World (Database (Table [MessageRow 3 "user" "c"; MessageRow 1 "user" "a";
                               MessageRow 2 "assistant" "b"] 3)
                       (Table [] 0)) [] [])).1 = Ok []) ∧
  (- 2 ^ 63 ≤ -1 < 0 ∧
   unique_ids [MessageRow 3 "user" "c"; MessageRow 1 "user" "a"; MessageRow 2 "assistant" "b"] ∧
   (get_conversation_messages (-1)
      (World (Database (Table [MessageRow 3 "user" "c"; MessageRow 1 "user" "a";
                               MessageRow 2 "assistant" "b"] 3)
                       (Table [] 0)) [] [])).1 =
     Ok [Message "user" "a"; Message "assistant" "b"; Message "user" "c"] ∧
   ∃ every,
     (get_conversation_messages (-1)
        (World (Database (Table [MessageRow 3 "user" "c"; MessageRow 1 "user" "a";
                                 MessageRow 2 "assistant" "b"] 3)
                         (Table [] 0)) [] [])).1 = Ok (dict_of_row <$> every) ∧
     every ≡ₚ [MessageRow 3 "user" "c"; MessageRow 1 "user" "a"; MessageRow 2 "assistant" "b"] ∧
     StronglySorted older every) ∧
  ((9223372036854775808 < - 2 ^ 63 ∨ 2 ^ 63 ≤ 9223372036854775808) ∧
   get_conversation_messages 9223372036854775808
     (World (Database (Table [MessageRow 3 "user" "c"; MessageRow 1 "user" "a";
                              MessageRow 2 "assistant" "b"] 3)
                      (Table [] 0)) [] []) =
     (Raise (Exn OverflowError "Python int too large to convert to SQLite INTEGER"),
      World (Database (Table [MessageRow 3 "user" "c"; MessageRow 1 "user" "a";
                              MessageRow 2 "assistant" "b"] 3)
                      (Table [] 0)) [] [SqlSelectMessages 9223372036854775808])).
Proof.
  assert (unique_ids [MessageRow 3 "user" "c"; MessageRow 1 "user" "a";
                      MessageRow 2 "assistant" "b"]) as Hu.
  { unfold unique_ids. simpl. apply (bool_decide_unpack _). vm_compute. reflexivity. }
  assert (∀ d, healthy 1 (World d [] [])) as Hh by (intros; constructor).
  assert (9223372036854775808 < - 2 ^ 63 ∨ 2 ^ 63 ≤ 9223372036854775808) as Hbig
    by (right; lia).
  split; [|split].
  - split; [apply Hh|]. exact (proj1 window_size_bounds _ (Hh _)).
  - split; [lia|]. split; [exact Hu|]. split; [vm_compute; reflexivity|].
    exact (proj1 (proj2 window_size_bounds) (-1)
             (World (Database (Table [MessageRow 3 "user" "c"; MessageRow 1 "user" "a";
                                      MessageRow 2 "assistant" "b"] 3)
                              (Table [] 0)) [] [])
             ltac:(lia) Hu (Hh _)).
  - split; [exact Hbig|].
    exact (proj2 (proj2 window_size_bounds) 9223372036854775808 _ Hbig (Hh _)).
Defined.

(** X2. A smaller window is the tail of a larger one: for
    [0 <= n <= m < 2 ^ 63], the list [get_conversation_messages(n)]
    returns is a suffix of the list [get_conversation_messages(m)]
    returns on the same store. *)
Theorem smaller_window_is_suffix_of_larger (n m : Z) (w w' : world) :
  0 ≤ n ≤ m → m < 2 ^ 63 → healthy 1 w → healthy 1 w' → db w' = db w →
  ∃ shorter longer,
    (get_conversation_messages n w).1 = Ok shorter ∧
    (get_conversation_messages m w').1 = Ok longer ∧
    shorter `suffix_of` longer.
Proof.
  intros Hnm Hm H H' Hdb. eexists _, _.
  rewrite !get_conversation_messages_ok by (done || (apply fits_int64_range; lia)).
  rewrite Hdb. split; [done|]. split; [done|].
  destruct (window_rows_suffix n m (db w) Hnm) as [k ->].
  rewrite fmap_app. by eexists.
Qed.

Lemma smaller_window_is_suffix_of_larger_witness :
  0 ≤ 1 ≤ 2 ∧ 2 < 2 ^ 63 ∧
  ∃ shorter longer,
    (get_conversation_messages 1
       (World (Database (Table [MessageRow 3 "user" "c"; MessageRow 1 "user" "a";
                                MessageRow 2 "assistant" "b"] 3)
                        (Table [] 0)) [] [])).1 = Ok shorter ∧
    (get_conversation_messages 2
       (World (Database (Table [MessageRow 3 "user" "c"; MessageRow 1 "user" "a";
                                MessageRow 2 "assistant" "b"] 3)
                        (Table [] 0)) [] [])).1 = Ok longer ∧
    shorter `suffix_of` longer.
Proof.
  assert (∀ d, healthy 1 (World d [] [])) as Hh by (intros; constructor).
  split; [lia|]. split; [lia|].
  exact (smaller_window_is_suffix_of_larger 1 2 _ _ ltac:(lia) ltac:(lia)
           (Hh _) (Hh _) eq_refl).
Defined.

(** X3. An append moves the window by one: after a successful
    [add_message_to_db(role, content)] on a store with a primary key,
    [get_conversation_messages(n + 1)] returns what
    [get_conversation_messages(n)] returned before the append, followed
    by the new message, for every [n >= 0] with [n + 1 < 2 ^ 63]. *)
Theorem append_extends_window (role content : string) (n : Z) (w : world) :
  0 ≤ n → n + 1 < 2 ^ 63 → table_ok (messages_table (db w)) → healthy 2 w →
  ∃ before w1,
    (get_conversation_messages n w).1 = Ok before ∧
    add_message_to_db role content w = (Ok (), w1) ∧
    (get_conversation_messages (n + 1) w1).1 = Ok (before ++ [Message role content]).
Proof.
  intros Hn Hn1 Hok H.
  assert (healthy 1 w) as H1 by (apply (healthy_le 1 2); [lia|done]).
  apply healthy_S in H as [_ H].
  assert (fits_int64 n = true) as Fn by (apply fits_int64_range; lia).
  assert (fits_int64 (n + 1) = true) as Fn1 by (apply fits_int64_range; lia).
  eexists _, _. split; [by rewrite get_conversation_messages_ok|].
  split; [by apply add_message_to_db_ok|].
  rewrite (get_conversation_messages_ok _ _ Fn1) by apply H. cbn [fst db].
  rewrite window_rows_add_row by done. by rewrite fmap_app.
Qed.

Lemma append_extends_window_witness :
  0 ≤ 1 ∧ 1 + 1 < 2 ^ 63 ∧
  table_ok (Table [MessageRow 3 "user" "c"; MessageRow 1 "user" "a";
                   MessageRow 2 "assistant" "b"] 3) ∧
  ∃ before w1,
    (get_conversation_messages 1
       (World (Database (Table [MessageRow 3 "user" "c"; MessageRow 1 "user" "a";
                                MessageRow 2 "assistant" "b"] 3)
                        (Table [] 0)) [] [])).1 = Ok before ∧
    add_message_to_db "assistant" "d"
       (World (Database (Table [MessageRow 3 "user" "c"; MessageRow 1 "user" "a";
                                MessageRow 2 "assistant" "b"] 3)
                        (Table [] 0)) [] []) = (Ok (), w1) ∧
    (get_conversation_messages (1 + 1) w1).1 = Ok (before ++ [Message "assistant" "d"]).
Proof.
  assert (table_ok (Table [MessageRow 3 "user" "c"; MessageRow 1 "user" "a";
                           MessageRow 2 "assistant" "b"] 3)) as Hok.
  { split.
    - unfold unique_ids. simpl. apply (bool_decide_unpack _). vm_compute. reflexivity.
    - repeat constructor; simpl; lia. }
  split; [lia|]. split; [lia|]. split; [exact Hok|].
  exact (append_extends_window "assistant" "d" 1
           (World (Database (Table [MessageRow 3 "user" "c"; MessageRow 1 "user" "a";
                                    MessageRow 2 "assistant" "b"] 3)
                            (Table [] 0)) [] [])
           ltac:(lia) ltac:(lia) Hok ltac:(constructor)).
Defined.

(** X4. The two reads never write: whether they return or raise,
    [get_conversation_messages] and [get_usage_summary] leave the
    database file exactly as it was. *)
Theorem reads_never_write :
  (∀ (n : Z) (w : world), db (get_conversation_messages n w).2 = db w) ∧
  (∀ w : world, db (get_usage_summary w).2 = db w).
Proof. split; [apply get_conversation_messages_db|apply get_usage_summary_db]. Qed.

(** X5. A read that fails in SQLite is not answered with a default:
    [get_conversation_messages] raises the error of [sqlite3] instead of
    returning an empty history, and [get_usage_summary], hence the
    [/usage] route, raises it instead of returning zeros; the SELECT is
    the only thing that was done. *)
Theorem failed_read_is_raised :
  (∀ (n : Z) (w : world) (detail : string) (rest : list (option string)),
     faults w = Some detail :: rest →
     get_conversation_messages n w =
       (Raise (Exn sqlite3_Error detail),
        World (db w) rest (trace w ++ [SqlSelectMessages n]))) ∧
  (∀ (w : world) (detail : string) (rest : list (option string)),
     faults w = Some detail :: rest →
     usage w =
       (Raise (Exn sqlite3_Error detail), World (db w) rest (trace w ++ [SqlSelectUsage]))).
Proof. split; [apply get_conversation_messages_fail|apply get_usage_summary_fail]. Qed.

Lemma failed_read_is_raised_witness :
  (faults (fresh [Some "database is locked"]) = [Some "database is locked"] ∧
   get_conversation_messages 10 (fresh [Some "database is locked"]) =
     (Raise (Exn sqlite3_Error "database is locked"),
      World (init_db None) [] [SqlSelectMessages 10])) ∧
  usage (fresh [Some "database is locked"]) =
    (Raise (Exn sqlite3_Error "database is locked"),
     World (init_db None) [] [SqlSelectUsage]).
Proof.
  split; [split; [reflexivity|]|].
  - exact (proj1 failed_read_is_raised 10 (fresh [Some "database is locked"])
             "database is locked" [] eq_refl).
  - exact (proj2 failed_read_is_raised (fresh [Some "database is locked"])
             "database is locked" [] eq_refl).
Defined.

(** ** Further properties of the /chat turn *)

(** X6. [generate_chat_completion] never raises, whatever GPT-4 and
    SQLite do: it sends one request for model ["gpt-4"] with the
    messages it was given and returns a string.  Either that string is
    the reply and one usage row for the reply's token counts was
    inserted, or it is ["Error: " + str(e)] for the exception [e] that
    was caught and printed, and the file is unchanged.  In both cases
    [messages] is untouched. *)
Theorem generate_chat_completion_never_raises
    (create : string → list message → result completion)
    (messages : list message) (w : world) :
  ∃ reply w',
    generate_chat_completion create messages w = (Ok reply, w') ∧
    api_requests (trace w') = api_requests (trace w) ++ [("gpt-4", messages)] ∧
    messages_table (db w') = messages_table (db w) ∧
    ((∃ r, create "gpt-4" messages = Ok r ∧ reply = reply_content r ∧
           db w' = add_usage_row "gpt-4" (usage_prompt_tokens r) (usage_completion_tokens r)
                                 (db w)) ∨
     (∃ e, reply = "Error: " +:+ exn_str e ∧ db w' = db w ∧
           Print ("Error generating chat completion: " +:+ exn_str e) ∈ trace w')).
Proof.
  destruct (generate_chat_completion_cases create messages w)
    as (reply & w' & evs & Hgen & Ht & Hevs & Hm & Hdb).
  exists reply, w'. split; [done|]. split; [|split; [done|]].
  - by rewrite Ht, api_requests_app, api_requests_request, Hevs.
  - destruct Hdb as [Hok|(e & -> & Hdb & Hin & _)]; [by left|right].
    exists e. split; [done|]. split; [done|].
    rewrite Ht. apply elem_of_app. right. by right.
Qed.



(** X8. What [chat] answers is what it stored: whenever [chat]
    returns, its result is the object [{"response": reply}], and
    [messages] has grown by exactly two rows, the user message of the
    request followed by an assistant message whose content is that same
    [reply]; at most one row was added to [usage]. *)
Theorem chat_response_is_stored
    (create : string → list message → result completion)
    (data : gmap string string) (w w' : world) (response : gmap string string) :
  chat create data w = (Ok response, w') →
  ∃ reply,
    response = {[ "response" := reply ]} ∧
    rows (messages_table (db w')) =
      rows (messages_table (db w)) ++
      [MessageRow (seq (messages_table (db w)) + 1) "user" (default "" (data !! "user_input"));
       MessageRow (seq (messages_table (db w)) + 2) "assistant" reply] ∧
    (usage_table (db w') = usage_table (db w) ∨
     ∃ u, rows (usage_table (db w')) = rows (usage_table (db w)) ++ [u] ∧
          use_model u = "gpt-4").
Proof.
  intros (reply & w3 & -> & -> & Hm & Hu)%chat_returns.
  exists reply. split; [done|]. split.
  - cbn [add_row messages_table insert rows seq]. rewrite Hm.
    cbn [add_row messages_table insert rows seq]. rewrite <-app_assoc. cbn [app].
    by replace (seq (messages_table (db w)) + 1 + 1) with (seq (messages_table (db w)) + 2)
      by lia.
  - cbn [add_row usage_table]. destruct Hu as [->|[r ->]]; [by left|right].
    eexists. split; [reflexivity|done].
Qed.

Lemma chat_response_is_stored_witness :
  ∃ w',
    chat (λ _ _, Ok (Completion "hello" 12 30)) {[ "user_input" := "hi" ]} (fresh []) =
      (Ok {[ "response" := "hello" ]}, w') ∧
    ∃ reply,
      ({[ "response" := "hello" ]} : gmap string string) = {[ "response" := reply ]} ∧
      rows (messages_table (db w')) =
        [] ++ [MessageRow (0 + 1) "user" "hi"; MessageRow (0 + 2) "assistant" reply] ∧
      (usage_table (db w') = Table [] 0 ∨
       ∃ u, rows (usage_table (db w')) = [] ++ [u] ∧ use_model u = "gpt-4").
Proof.
  eexists. split; [vm_compute; reflexivity|].
  exact (chat_response_is_stored (λ _ _, Ok (Completion "hello" 12 30))
           {[ "user_input" := "hi" ]} (fresh []) _ _ eq_refl).
Defined.

(** X9. A turn sends at most one request to OpenAI.  When the user
    message was stored and the window read, it sends exactly one, for
    model ["gpt-4"], whatever happens afterwards; the messages of the
    request are the nine most recent messages stored before the turn
    followed by the user message of the turn. *)
Theorem chat_sends_one_request
    (create : string → list message → result completion)
    (data : gmap string string) (w : world) :
  (api_requests (trace (chat create data w).2) = api_requests (trace w) ∨
   ∃ history,
     api_requests (trace (chat create data w).2) =
       api_requests (trace w) ++ [("gpt-4", history)]) ∧
  (table_ok (messages_table (db w)) → healthy 2 w →
   ∃ before,
     (get_conversation_messages 9 w).1 = Ok before ∧
     api_requests (trace (chat create data w).2) =
       api_requests (trace w) ++
       [("gpt-4", before ++ [Message "user" (default "" (data !! "user_input"))])]).
Proof.
  split.
  - destruct (chat_cases create data w)
      as [(detail & rest & E)|[(detail & rest & E)|
          (reply & w3 & evs & _ & Ht & Hevs & _ & _ & [(detail & rest & E)|E])]];
      rewrite E; cbn [snd trace].
    + left. rewrite api_requests_app, api_requests_insert. apply app_nil_r.
    + left. rewrite api_requests_app, api_requests_insert, api_requests_select.
      apply app_nil_r.
    + right. eexists.
      by rewrite Ht, !api_requests_app, Hevs, api_requests_turn, api_requests_insert,
        !app_nil_r.
    + right. eexists.
      by rewrite Ht, !api_requests_app, Hevs, api_requests_turn, api_requests_insert,
        !app_nil_r.
  - intros Hok H.
    assert (healthy 1 w) as H1 by (apply (healthy_le 1 2); [lia|done]).
    exists (dict_of_row <$> window_rows 9 (db w)).
    split; [by rewrite get_conversation_messages_ok|].
    rewrite <-chat_history by done. by apply chat_request.
Qed.

Lemma chat_sends_one_request_witness :
  table_ok (messages_table (db (fresh [None; None; None; Some "disk I/O error"]))) ∧
  healthy 2 (fresh [None; None; None; Some "disk I/O error"]) ∧
  ∃ before,
    (get_conversation_messages 9 (fresh [None; None; None; Some "disk I/O error"])).1 =
      Ok before ∧
    api_requests
      (trace (chat (λ _ _, Ok (Completion "hello" 12 30)) {[ "user_input" := "hi" ]}
                   (fresh [None; None; None; Some "disk I/O error"])).2) =
      api_requests (trace (fresh [None; None; None; Some "disk I/O error"])) ++
      [("gpt-4", before ++ [Message "user" "hi"])].
Proof.
  assert (table_ok (messages_table (db (fresh [None; None; None; Some "disk I/O error"]))))
    as Hok by (split; constructor).
  assert (healthy 2 (fresh [None; None; None; Some "disk I/O error"])) as H
    by (repeat constructor).
  split; [exact Hok|]. split; [exact H|].
  exact (proj2 (chat_sends_one_request (λ _ _, Ok (Completion "hello" 12 30))
                  {[ "user_input" := "hi" ]}
                  (fresh [None; None; None; Some "disk I/O error"])) Hok H).
Defined.

(** X10. The turn that succeeds.  On a store with a primary key, when
    the four statements sent to SQLite go through and GPT-4 answers the
    request made of the nine most recent messages and the user message
    with token counts that are, with their sum, INTEGERs (signed
    64-bit), [chat] returns [{"response": reply}] and has done exactly
    this, in this order: stored the user message, read the window of 10, called
    GPT-4, recorded the usage of the reply ([p], [c], [p + c] and the
    cost at the GPT-4 rates), stored the reply as assistant message. *)
Theorem chat_turn_succeeds
    (create : string → list message → result completion)
    (data : gmap string string) (w : world) (before : list message) (r : completion) :
  let user_input := default "" (data !! "user_input") in
  let history := before ++ [Message "user" user_input] in
  let p := usage_prompt_tokens r in
  let c := usage_completion_tokens r in
  let cost := cost_at GPT4_PROMPT_COST_PER_1K GPT4_COMPLETION_COST_PER_1K p c in
  table_ok (messages_table (db w)) →
  healthy 4 w →
  (get_conversation_messages 9 w).1 = Ok before →
  create "gpt-4" history = Ok r →
  - 2 ^ 63 ≤ p < 2 ^ 63 → - 2 ^ 63 ≤ c < 2 ^ 63 → - 2 ^ 63 ≤ p + c < 2 ^ 63 →
  ∃ w',
    chat create data w = (Ok {[ "response" := reply_content r ]}, w') ∧
    rows (messages_table (db w')) =
      rows (messages_table (db w)) ++
      [MessageRow (seq (messages_table (db w)) + 1) "user" user_input;
       MessageRow (seq (messages_table (db w)) + 2) "assistant" (reply_content r)] ∧
    rows (usage_table (db w')) =
      rows (usage_table (db w)) ++
      [UsageRow (seq (usage_table (db w)) + 1) "gpt-4" p c (p + c) cost] ∧
    trace w' =
      trace w ++
      [SqlInsertMessage "user" user_input;
       SqlSelectMessages 10;
       ApiRequest "gpt-4" history;
       SqlInsertUsage "gpt-4" p c (p + c) cost;
       SqlInsertMessage "assistant" (reply_content r)] ∧
    faults w' = drop 4 (faults w).
Proof.
  intros user_input history p c cost Hok H Hbefore Hcreate Hp Hc Hpc.
  pose proof (record_usage_integers_range p c Hp Hc Hpc) as Hint.
  assert (healthy 1 w) as H1 by (apply (healthy_le 1 4); [lia|done]).
  assert (healthy 2 w) as H2 by (apply (healthy_le 2 4); [lia|done]).
  rewrite get_conversation_messages_ok in Hbefore by done.
  cbn [fst] in Hbefore. injection Hbefore as <-.
  unfold history in *. rewrite <-chat_history in * by done.
  assert (healthy 2 (World (add_row "user" user_input (db w)) (tail (tail (faults w)))
                           (trace w ++ [SqlInsertMessage "user" user_input;
                                        SqlSelectMessages 10]))) as H34.
  { apply healthy_S in H as [_ H]. pose proof (H (db w) []) as [_ H']%healthy_S.
    pose proof (H' (db w) []) as H''. cbn [faults] in H''. apply H''. }
  pose proof (generate_chat_completion_ok create _ r _ Hcreate Hint
                (healthy_le 1 2 _ ltac:(lia) H34)) as Hgen.
  apply healthy_S in H34 as [_ H4]. cbn [faults db trace] in Hgen, H4.
  eexists. split; [apply (chat_steps create data w _ _ H2 Hgen), H4|].
  cbn [db trace faults add_row add_usage_row messages_table usage_table insert rows seq].
  split; [|split; [done|split]].
  - rewrite <-app_assoc. cbn [app].
    by replace (seq (messages_table (db w)) + 1 + 1) with (seq (messages_table (db w)) + 2)
      by lia.
  - by rewrite <-!app_assoc.
  - by rewrite <-(drop_0 (faults w)), !tail_drop.
Qed.

Lemma chat_turn_succeeds_witness :
  table_ok (messages_table (db (fresh []))) ∧ healthy 4 (fresh []) ∧
  - 2 ^ 63 ≤ 12 < 2 ^ 63 ∧ - 2 ^ 63 ≤ 30 < 2 ^ 63 ∧ - 2 ^ 63 ≤ 12 + 30 < 2 ^ 63 ∧
  ∃ w',
    chat (λ _ _, Ok (Completion "hello" 12 30)) {[ "user_input" := "hi" ]} (fresh []) =
      (Ok {[ "response" := "hello" ]}, w') ∧
    rows (messages_table (db w')) =
      [MessageRow 1 "user" "hi"; MessageRow 2 "assistant" "hello"] ∧
    rows (usage_table (db w')) =
      [UsageRow 1 "gpt-4" 12 30 42
                (cost_at GPT4_PROMPT_COST_PER_1K GPT4_COMPLETION_COST_PER_1K 12 30)] ∧
    trace w' =
      [SqlInsertMessage "user" "hi";
       SqlSelectMessages 10;
       ApiRequest "gpt-4" [Message "user" "hi"];
       SqlInsertUsage "gpt-4" 12 30 42
         (cost_at GPT4_PROMPT_COST_PER_1K GPT4_COMPLETION_COST_PER_1K 12 30);
       SqlInsertMessage "assistant" "hello"] ∧
    faults w' = [].
Proof.
  assert (table_ok (messages_table (db (fresh [])))) as Hok by (split; constructor).
  assert (healthy 4 (fresh [])) as H by constructor.
  split; [exact Hok|]. split; [exact H|]. split; [lia|]. split; [lia|]. split; [lia|].
  exact (chat_turn_succeeds (λ _ _, Ok (Completion "hello" 12 30))
           {[ "user_input" := "hi" ]} (fresh []) [] (Completion "hello" 12 30)
           Hok H eq_refl eq_refl ltac:(simpl; lia) ltac:(simpl; lia) ltac:(simpl; lia)).
Defined.

(** X11. A turn is not a transaction.  If GPT-4 answered, with token
    counts that are, with their sum, INTEGERs (signed 64-bit), and the
    usage was recorded but the append of the assistant message fails,
    [chat] raises the error of [sqlite3]; the user message and the
    usage row stay in the file, and the reply is neither stored nor
    returned. *)
Theorem chat_keeps_partial_turn
    (create : string → list message → result completion)
    (data : gmap string string) (w : world) (before : list message) (r : completion)
    (detail : string) (rest : list (option string)) :
  let user_input := default "" (data !! "user_input") in
  let p := usage_prompt_tokens r in
  let c := usage_completion_tokens r in
  table_ok (messages_table (db w)) →
  faults w = None :: None :: None :: Some detail :: rest →
  (get_conversation_messages 9 w).1 = Ok before →
  create "gpt-4" (before ++ [Message "user" user_input]) = Ok r →
  - 2 ^ 63 ≤ p < 2 ^ 63 → - 2 ^ 63 ≤ c < 2 ^ 63 → - 2 ^ 63 ≤ p + c < 2 ^ 63 →
  ∃ w',
    chat create data w = (Raise (Exn sqlite3_Error detail), w') ∧
    rows (messages_table (db w')) =
      rows (messages_table (db w)) ++
      [MessageRow (seq (messages_table (db w)) + 1) "user" user_input] ∧
    rows (usage_table (db w')) =
      rows (usage_table (db w)) ++
      [UsageRow (seq (usage_table (db w)) + 1) "gpt-4" p c (p + c)
                (cost_at GPT4_PROMPT_COST_PER_1K GPT4_COMPLETION_COST_PER_1K p c)] ∧
    faults w' = rest.
Proof.
  intros user_input p c Hok Hf Hbefore Hcreate Hp Hc Hpc.
  pose proof (record_usage_integers_range p c Hp Hc Hpc) as Hint.
  assert (healthy 3 w) as H by (unfold healthy; rewrite Hf; repeat constructor).
  assert (healthy 1 w) as H1 by (apply (healthy_le 1 3); [lia|done]).
  assert (healthy 2 w) as H2 by (apply (healthy_le 2 3); [lia|done]).
  rewrite get_conversation_messages_ok in Hbefore by done.
  cbn [fst] in Hbefore. injection Hbefore as <-.
  rewrite <-chat_history in Hcreate by done.
  assert (healthy 1 (World (add_row "user" user_input (db w)) (tail (tail (faults w)))
                           (trace w ++ [SqlInsertMessage "user" user_input;
                                        SqlSelectMessages 10]))) as H3.
  { unfold healthy. cbn [faults]. rewrite Hf. repeat constructor. }
  pose proof (generate_chat_completion_ok create _ r _ Hcreate Hint H3) as Hgen.
  cbn [faults db trace] in Hgen.
  eexists. split.
  - apply (chat_last_append_fails create data w _ _ detail rest H2 Hgen).
    cbn [faults]. by rewrite Hf.
  - cbn [db faults add_usage_row add_row messages_table usage_table insert rows seq].
    done.
Qed.

Lemma chat_keeps_partial_turn_witness :
  table_ok (messages_table (db (fresh [None; None; None; Some "disk I/O error"]))) ∧
  - 2 ^ 63 ≤ 12 < 2 ^ 63 ∧ - 2 ^ 63 ≤ 30 < 2 ^ 63 ∧ - 2 ^ 63 ≤ 12 + 30 < 2 ^ 63 ∧
  ∃ w',
    chat (λ _ _, Ok (Completion "hello" 12 30)) {[ "user_input" := "hi" ]}
         (fresh [None; None; None; Some "disk I/O error"]) =
      (Raise (Exn sqlite3_Error "disk I/O error"), w') ∧
    rows (messages_table (db w')) = [MessageRow 1 "user" "hi"] ∧
    rows (usage_table (db w')) =
      [UsageRow 1 "gpt-4" 12 30 42
                (cost_at GPT4_PROMPT_COST_PER_1K GPT4_COMPLETION_COST_PER_1K 12 30)] ∧
    faults w' = [].
Proof.
  assert (table_ok (messages_table (db (fresh [None; None; None; Some "disk I/O error"]))))
    as Hok by (split; constructor).
  split; [exact Hok|]. split; [lia|]. split; [lia|]. split; [lia|].
  exact (chat_keeps_partial_turn (λ _ _, Ok (Completion "hello" 12 30))
           {[ "user_input" := "hi" ]} (fresh [None; None; None; Some "disk I/O error"])
           [] (Completion "hello" 12 30) "disk I/O error" []
           Hok eq_refl eq_refl eq_refl
           ltac:(simpl; lia) ltac:(simpl; lia) ltac:(simpl; lia)).
Defined.

(** X12. The conversation carries over.  Whatever a turn returned as
    its reply, the answer of GPT-4 or the text of a caught error, the
    request of the next turn ends with the user message of that turn,
    that reply as assistant message, and the new user message, after the
    seven most recent messages from before. *)
Theorem next_request_carries_previous_turn
    (create create' : string → list message → result completion)
    (data data' : gmap string string) (w w1 : world) (reply : string)
    (earlier : list message) :
  table_ok (messages_table (db w)) →
  healthy 1 w →
  (get_conversation_messages 7 w).1 = Ok earlier →
  chat create data w = (Ok {[ "response" := reply ]}, w1) →
  healthy 2 w1 →
  api_requests (trace (chat create' data' w1).2) =
    api_requests (trace w1) ++
    [("gpt-4", earlier ++ [Message "user" (default "" (data !! "user_input"));
                           Message "assistant" reply;
                           Message "user" (default "" (data' !! "user_input"))])].
Proof.
  intros Hok H Hearlier Hchat H1.
  rewrite get_conversation_messages_ok in Hearlier by done.
  cbn [fst] in Hearlier. injection Hearlier as <-.
  destruct (chat_returns create data w _ w1 Hchat) as (reply' & w3 & Er & Hdb & Hm & _).
  apply (f_equal (lookup "response")) in Er. rewrite !lookup_singleton_eq in Er.
  injection Er as <-.
  set (d1 := add_row "user" (default "" (data !! "user_input")) (db w)).
  assert (messages_table (db w1) = messages_table (add_row "assistant" reply d1)) as Ew1.
  { rewrite Hdb. cbn [add_row messages_table]. by rewrite Hm. }
  assert (table_ok (messages_table d1)) as Hok1 by by apply table_ok_add_row.
  assert (table_ok (messages_table (db w1))) as Hok2.
  { rewrite Ew1. by apply table_ok_add_row. }
  rewrite chat_request by done. rewrite chat_history by done.
  rewrite (window_rows_messages_table 9 _ _ Ew1).
  pose proof (window_rows_add_row "assistant" reply 8 d1 ltac:(lia) Hok1) as E8.
  change (8 + 1) with 9 in E8. rewrite E8.
  pose proof (window_rows_add_row "user" (default "" (data !! "user_input")) 7 (db w)
                ltac:(lia) Hok) as E7.
  change (7 + 1) with 8 in E7. unfold d1 at 1. rewrite E7.
  rewrite !fmap_app, <-!app_assoc. done.
Qed.

Lemma next_request_carries_previous_turn_witness :
  table_ok (messages_table (db (fresh []))) ∧ healthy 1 (fresh []) ∧
  (get_conversation_messages 7 (fresh [])).1 = Ok [] ∧
  (chat (λ _ _, Raise (Exn openai_Error "timeout")) {[ "user_input" := "hi" ]} (fresh [])).1 =
    Ok {[ "response" := "Error: timeout" ]} ∧
  api_requests
    (trace (chat (λ _ _, Ok (Completion "hello" 12 30)) {[ "user_input" := "are you there" ]}
                 (chat (λ _ _, Raise (Exn openai_Error "timeout"))
                       {[ "user_input" := "hi" ]} (fresh [])).2).2) =
    [("gpt-4", [Message "user" "hi"]);
     ("gpt-4", [Message "user" "hi"; Message "assistant" "Error: timeout";
                Message "user" "are you there"])].
Proof.
  assert (table_ok (messages_table (db (fresh [])))) as Hok by (split; constructor).
  assert (healthy 1 (fresh [])) as H by constructor.
  split; [exact Hok|]. split; [exact H|]. split; [reflexivity|]. split; [reflexivity|].
  exact (next_request_carries_previous_turn
           (λ _ _, Raise (Exn openai_Error "timeout")) (λ _ _, Ok (Completion "hello" 12 30))
           {[ "user_input" := "hi" ]} {[ "user_input" := "are you there" ]}
           (fresh []) _ "Error: timeout" [] Hok H eq_refl eq_refl ltac:(constructor)).
Defined.

(** ** Further properties of the usage ledger *)

(** X13. The summary of any ledger.  When its SELECT is run,
    [get_usage_summary] either returns, and then [total_prompt_tokens]
    and [total_completion_tokens] are the ints that sum the two columns
    (0 over no rows) and [total_cost] is not [None], so that [round] is
    never called on [None]; or a running sum of token counts has left
    the INTEGERs and it raises the error "integer overflow" of
    [sqlite3].  Over non-negative counts whose two totals are below
    [2 ^ 63] it returns. *)
Theorem usage_summary_totals (w : world) :
  healthy 1 w →
  ((∃ s w',
      get_usage_summary w = (Ok s, w') ∧
      total_prompt_tokens s = PyInt (column_total use_prompt_tokens (db w)) ∧
      total_completion_tokens s = PyInt (column_total use_completion_tokens (db w)) ∧
      total_cost s ≠ PyNone) ∨
   (get_usage_summary w).1 = Raise (Exn sqlite3_Error "integer overflow")) ∧
  (Forall (λ u, 0 ≤ use_prompt_tokens u ∧ 0 ≤ use_completion_tokens u)
          (rows (usage_table (db w))) →
   column_total use_prompt_tokens (db w) < 2 ^ 63 →
   column_total use_completion_tokens (db w) < 2 ^ 63 →
   ∃ s w',
     get_usage_summary w = (Ok s, w') ∧
     total_prompt_tokens s = PyInt (column_total use_prompt_tokens (db w)) ∧
     total_completion_tokens s = PyInt (column_total use_completion_tokens (db w)) ∧
     total_cost s ≠ PyNone).
Proof.
  intros H. rewrite get_usage_summary_ok, summary_of_eq by done. split.
  - destruct (select_sums (db w)); [left|by right].
    eexists _, _. split; [reflexivity|].
    cbn [total_prompt_tokens total_completion_tokens total_cost].
    split; [done|]. split; [done|]. by destruct (is_zero _).
  - intros Hrows Hp Hc. destruct (select_sums_Done (db w) Hrows Hp Hc) as [row ->].
    eexists _, _. split; [reflexivity|].
    cbn [total_prompt_tokens total_completion_tokens total_cost].
    split; [done|]. split; [done|]. by destruct (is_zero _).
Qed.

Lemma usage_summary_totals_witness :
  healthy 1 (World (Database (Table [] 0)
                             (Table [UsageRow 2 "gpt-4" 12 30 42 (literal 0 1);
                                     UsageRow 1 "gpt-4" 1000 1000 2000 (literal 9 100)] 2))
                   [] []) ∧
  (∃ s w',
     get_usage_summary
       (World (Database (Table [] 0)
                        (Table [UsageRow 2 "gpt-4" 12 30 42 (literal 0 1);
                                UsageRow 1 "gpt-4" 1000 1000 2000 (literal 9 100)] 2))
              [] []) = (Ok s, w') ∧
     total_prompt_tokens s = PyInt 1012 ∧
     total_completion_tokens s = PyInt 1030 ∧
     total_cost s ≠ PyNone) ∧
  (get_usage_summary
     (World (Database (Table [] 0)
                      (Table [UsageRow 1 "gpt-4" (2 ^ 62) 0 (2 ^ 62) (literal 0 1);
                              UsageRow 2 "gpt-4" (2 ^ 62) 0 (2 ^ 62) (literal 0 1)] 2))
            [] [])).1 = Raise (Exn sqlite3_Error "integer overflow").
Proof.
  assert (∀ d, healthy 1 (World d [] [])) as Hh by (intros; constructor).
  split; [apply Hh|]. split.
  - apply (proj2 (usage_summary_totals
                    (World (Database (Table [] 0)
                              (Table [UsageRow 2 "gpt-4" 12 30 42 (literal 0 1);
                                      UsageRow 1 "gpt-4" 1000 1000 2000 (literal 9 100)] 2))
                           [] []) (Hh _))).
    + repeat constructor; simpl; lia.
    + vm_compute. reflexivity.
    + vm_compute. reflexivity.
  - destruct (proj1 (usage_summary_totals
                       (World (Database (Table [] 0)
                                 (Table [UsageRow 1 "gpt-4" (2 ^ 62) 0 (2 ^ 62) (literal 0 1);
                                         UsageRow 2 "gpt-4" (2 ^ 62) 0 (2 ^ 62) (literal 0 1)] 2))
                              [] []) (Hh _))) as [(s & w' & E & _)|E]; [|exact E].
    vm_compute in E. discriminate E.
Defined.

(** X14. Recording adds to the totals: between a summary taken before
    a [record_usage(model, p, c)] call that returns and a summary taken
    after it, [total_prompt_tokens] grows by exactly [p] and
    [total_completion_tokens] by exactly [c]. *)
Theorem record_usage_adds_to_totals
    (model : string) (p c : Z) (w0 w w1 w2 : world) (s0 s1 : usage_summary) :
  get_usage_summary w0 = (Ok s0, w) →
  record_usage model p c w = (Ok (), w1) →
  get_usage_summary w1 = (Ok s1, w2) →
  ∃ a b,
    total_prompt_tokens s0 = PyInt a ∧ total_prompt_tokens s1 = PyInt (a + p) ∧
    total_completion_tokens s0 = PyInt b ∧ total_completion_tokens s1 = PyInt (b + c).
Proof.
  intros [E0 Hdb0]%get_usage_summary_returns Hrec [E1 _]%get_usage_summary_returns.
  rewrite (record_usage_returns _ _ _ _ _ Hrec), Hdb0 in E1.
  apply summary_of_returns in E0 as ->. apply summary_of_returns in E1 as ->.
  eexists _, _. cbn [total_prompt_tokens total_completion_tokens].
  rewrite !column_total_add_usage_row. done.
Qed.

Lemma record_usage_adds_to_totals_witness :
  ∃ w w1 w2 s1,
    get_usage_summary (fresh []) = (Ok (UsageSummary (PyInt 0) (PyInt 0) (PyInt 0)), w) ∧
    record_usage "gpt-4" 12 30 w = (Ok (), w1) ∧
    get_usage_summary w1 = (Ok s1, w2) ∧
    total_prompt_tokens s1 = PyInt 12 ∧
    total_completion_tokens s1 = PyInt 30.
Proof.
  set (w := (get_usage_summary (fresh [])).2).
  set (w1 := (record_usage "gpt-4" 12 30 w).2).
  set (w2 := (get_usage_summary w1).2).
  set (s1 := UsageSummary (PyInt 12) (PyInt 30) (PyFloat (literal 216 100000))).
  assert (get_usage_summary (fresh []) =
          (Ok (UsageSummary (PyInt 0) (PyInt 0) (PyInt 0)), w)) as E0
    by (vm_compute; reflexivity).
  assert (record_usage "gpt-4" 12 30 w = (Ok (), w1)) as E1 by (vm_compute; reflexivity).
  assert (get_usage_summary w1 = (Ok s1, w2)) as E2 by (vm_compute; reflexivity).
  exists w, w1, w2, s1. split; [exact E0|]. split; [exact E1|]. split; [exact E2|].
  destruct (record_usage_adds_to_totals "gpt-4" 12 30 _ _ _ _ _ _ E0 E1 E2)
    as (a & b & Ha & Ha' & Hb & Hb').
  injection Ha as <-. injection Hb as <-. split; [exact Ha'|exact Hb'].
Defined.

(** X15. A token count too large for a [float] stops [record_usage]
    before it reaches SQLite: the division by [1000.0] raises
    [OverflowError], no statement is sent, and nothing at all has
    changed. *)
Theorem record_usage_overflow_sends_nothing (model : string) (p c : Z) (w : world) :
  fits_float p = false ∨ fits_float c = false →
  record_usage model p c w =
    (Raise (Exn OverflowError "int too large to convert to float"), w).
Proof.
  intros H. apply record_usage_overflow. apply andb_false_iff. done.
Qed.

Lemma record_usage_overflow_sends_nothing_witness :
  fits_float (2 ^ 1024) = false ∧
  record_usage "gpt-4" (2 ^ 1024) 30 (fresh []) =
    (Raise (Exn OverflowError "int too large to convert to float"), fresh []).
Proof.
  assert (fits_float (2 ^ 1024) = false) as H by (vm_compute; reflexivity).
  split; [exact H|].
  exact (record_usage_overflow_sends_nothing "gpt-4" (2 ^ 1024) 30 (fresh [])
           (or_introl H)).
Defined.

(** X16. Token counts below [2 ^ 53] in absolute value, as any count
    GPT-4 reports is, never overflow: for them [record_usage] raises
    nothing but an error of [sqlite3], and when the INSERT goes through
    it returns, having persisted the row. *)
Theorem record_usage_of_small_counts (model : string) (p c : Z) (w : world) :
  - 2 ^ 53 < p < 2 ^ 53 → - 2 ^ 53 < c < 2 ^ 53 →
  (∀ e, (record_usage model p c w).1 = Raise e → exn_type e = sqlite3_Error) ∧
  (healthy 1 w →
   (record_usage model p c w).1 = Ok () ∧
   rows (usage_table (db (record_usage model p c w).2)) =
     rows (usage_table (db w)) ++
     [UsageRow (seq (usage_table (db w)) + 1) model p c (p + c)
               (cost_at GPT4_PROMPT_COST_PER_1K GPT4_COMPLETION_COST_PER_1K p c)]).
Proof.
  intros Hp Hc.
  assert (fits_int64 p && fits_int64 c && fits_int64 (p + c) = true) as Hint
    by (apply record_usage_integers_range; lia).
  apply fits_float_small in Hp, Hc. split.
  - intros e He. destruct (healthy_cases w) as [H|(detail & rest & H)].
    + by rewrite record_usage_ok in He.
    + rewrite (record_usage_fail _ _ _ _ _ _ Hp Hc H) in He. by injection He as <-.
  - intros H. by rewrite record_usage_ok.
Qed.

Lemma record_usage_of_small_counts_witness :
  (- 2 ^ 53 < 9007199254740991 < 2 ^ 53 ∧ - 2 ^ 53 < 0 < 2 ^ 53) ∧
  ((record_usage "gpt-4" 9007199254740991 0 (fresh [Some "disk I/O error"])).1 =
     Raise (Exn sqlite3_Error "disk I/O error") ∧
   exn_type (Exn sqlite3_Error "disk I/O error") = sqlite3_Error) ∧
  (healthy 1 (fresh []) ∧
   (record_usage "gpt-4" 9007199254740991 0 (fresh [])).1 = Ok () ∧
   rows (usage_table (db (record_usage "gpt-4" 9007199254740991 0 (fresh [])).2)) =
     rows (usage_table (db (fresh []))) ++
     [UsageRow (seq (usage_table (db (fresh []))) + 1) "gpt-4" 9007199254740991 0
               (9007199254740991 + 0)
               (cost_at GPT4_PROMPT_COST_PER_1K GPT4_COMPLETION_COST_PER_1K
                        9007199254740991 0)]).
Proof.
  assert (- 2 ^ 53 < 9007199254740991 < 2 ^ 53) as Hp by lia.
  assert (- 2 ^ 53 < 0 < 2 ^ 53) as Hc by lia.
  assert (healthy 1 (fresh [])) as H by constructor.
  split; [split; [exact Hp|exact Hc]|]. split.
  - split; [vm_compute; reflexivity|].
    exact (proj1 (record_usage_of_small_counts "gpt-4" 9007199254740991 0
                    (fresh [Some "disk I/O error"]) Hp Hc)
                 (Exn sqlite3_Error "disk I/O error") ltac:(vm_compute; reflexivity)).
  - split; [exact H|].
    exact (proj2 (record_usage_of_small_counts "gpt-4" 9007199254740991 0 (fresh []) Hp Hc) H).
Defined.

(** X17. Costs are never negative.  For non-negative token counts the
    cost a [record_usage] call that returns has persisted is [+0.0], a
    positive float or [+inf], never a negative number and never NaN. *)
Theorem recorded_cost_is_nonnegative (model : string) (p c : Z) (w w' : world) :
  0 ≤ p → 0 ≤ c → record_usage model p c w = (Ok (), w') →
  ∃ u, rows (usage_table (db w')) = rows (usage_table (db w)) ++ [u] ∧
       use_prompt_tokens u = p ∧ use_completion_tokens u = c ∧
       nonnegative (use_cost u) = true.
Proof.
  intros Hp Hc Hrec. rewrite (record_usage_returns _ _ _ _ _ Hrec).
  eexists. split; [reflexivity|]. split; [done|]. split; [done|].
  by apply cost_at_nonnegative.
Qed.

Lemma recorded_cost_is_nonnegative_witness :
  0 ≤ 12 ∧ 0 ≤ 30 ∧
  ∃ u, rows (usage_table (db (record_usage "gpt-4" 12 30 (fresh [])).2)) =
         rows (usage_table (db (fresh []))) ++ [u] ∧
       use_prompt_tokens u = 12 ∧ use_completion_tokens u = 30 ∧
       nonnegative (use_cost u) = true.
Proof.
  assert (record_usage "gpt-4" 12 30 (fresh []) =
          (Ok (), (record_usage "gpt-4" 12 30 (fresh [])).2)) as E
    by (vm_compute; reflexivity).
  split; [lia|]. split; [lia|].
  exact (recorded_cost_is_nonnegative "gpt-4" 12 30 (fresh []) _
           ltac:(lia) ltac:(lia) E).
Defined.

(** X18. Over a ledger whose costs are not negative, the [total_cost]
    of the summary is the int 0 or a float that is not negative and not
    NaN. *)
Theorem total_cost_is_nonnegative (w w' : world) (s : usage_summary) :
  Forall (λ u, nonnegative (use_cost u) = true) (rows (usage_table (db w))) →
  get_usage_summary w = (Ok s, w') →
  total_cost s = PyInt 0 ∨ ∃ f, total_cost s = PyFloat f ∧ nonnegative f = true.
Proof.
  intros Hrows [Hs _]%get_usage_summary_returns.
  apply summary_of_returns in Hs as ->. cbn [total_cost].
  destruct (is_zero (cost_total (db w))); [by left|right].
  eexists. split; [done|]. apply float_round_nonnegative.
  unfold cost_total. apply foldl_fadd_nonnegative; [done|].
  apply Forall_fmap. by rewrite table_scan_perm.
Qed.

Lemma total_cost_is_nonnegative_witness :
  Forall (λ u, nonnegative (use_cost u) = true)
         (rows (usage_table (db (record_usage "gpt-4" 12 30 (fresh [])).2))) ∧
  ∃ s w',
    get_usage_summary (record_usage "gpt-4" 12 30 (fresh [])).2 = (Ok s, w') ∧
    total_cost s = PyFloat (literal 216 100000) ∧
    (total_cost s = PyInt 0 ∨ ∃ f, total_cost s = PyFloat f ∧ nonnegative f = true).
Proof.
  assert (Forall (λ u, nonnegative (use_cost u) = true)
                 (rows (usage_table (db (record_usage "gpt-4" 12 30 (fresh [])).2)))) as Hrows
    by (repeat constructor).
  assert (get_usage_summary (record_usage "gpt-4" 12 30 (fresh [])).2 =
          (Ok (UsageSummary (PyInt 12) (PyInt 30) (PyFloat (literal 216 100000))),
           (get_usage_summary (record_usage "gpt-4" 12 30 (fresh [])).2).2)) as E
    by (vm_compute; reflexivity).
  split; [exact Hrows|]. eexists _, _. split; [exact E|]. split; [reflexivity|].
  exact (total_cost_is_nonnegative _ _ _ Hrows E).
Defined.

(** ** Properties of every run *)

(** X19. The stores only grow.  Along any run of the program (requests
    to [/chat] and [/usage], direct calls of the store functions,
    SQLite failing or not), the rows of [messages] and of [usage] at
    an earlier moment are a prefix of the rows at any later moment: no
    stored message or usage record is ever deleted, changed or
    reordered, and the AUTOINCREMENT counters never go back. *)
Theorem stores_only_grow (w w' : world) :
  rtc step w w' →
  rows (messages_table (db w)) `prefix_of` rows (messages_table (db w')) ∧
  rows (usage_table (db w)) `prefix_of` rows (usage_table (db w')) ∧
  seq (messages_table (db w)) ≤ seq (messages_table (db w')) ∧
  seq (usage_table (db w)) ≤ seq (usage_table (db w')).
Proof.
  intros Hrun. change (extends (db w) (db w')).
  apply (rtc_ind_r (R:=step) (λ w', extends (db w) (db w')) w); [..|exact Hrun].
  - unfold extends. done.
  - intros w1 w2 _ Hstep IH.
    apply (step_invariant (extends (db w)) w1 w2); [..|done|done].
    + intros. by apply extends_add_row.
    + intros. by apply extends_add_usage_row.
Qed.

Lemma stores_only_grow_witness :
  rtc step (fresh [])
      (chat (λ _ _, Ok (Completion "hello" 12 30)) {[ "user_input" := "hi" ]} (fresh [])).2 ∧
  rows (messages_table (db (fresh []))) `prefix_of`
    [MessageRow 1 "user" "hi"; MessageRow 2 "assistant" "hello"] ∧
  rows (usage_table (db (fresh []))) `prefix_of`
    rows (usage_table (db (chat (λ _ _, Ok (Completion "hello" 12 30))
                                {[ "user_input" := "hi" ]} (fresh [])).2)) ∧
  seq (messages_table (db (fresh []))) ≤ 2 ∧
  seq (usage_table (db (fresh []))) ≤ 1.
Proof.
  assert (rtc step (fresh [])
            (chat (λ _ _, Ok (Completion "hello" 12 30)) {[ "user_input" := "hi" ]}
                  (fresh [])).2) as Hrun.
  { apply rtc_once, step_chat. }
  split; [exact Hrun|].
  exact (stores_only_grow _ _ Hrun).
Defined.

(** X20. In every world the program can reach from a new file, the ids
    of each table are 1, 2, 3, ... in the order of the rows, with no
    gap, and the counter equals the number of rows; so
    [get_conversation_messages(n)], for [0 <= n < 2 ^ 63], returns the
    last [min(n, L)] stored messages in the order they were stored
    in. *)
Theorem reachable_store_is_consecutive (w : world) :
  reachable w →
  msg_id <$> rows (messages_table (db w)) = seqZ 1 (seq (messages_table (db w))) ∧
  Z.of_nat (length (rows (messages_table (db w)))) = seq (messages_table (db w)) ∧
  use_id <$> rows (usage_table (db w)) = seqZ 1 (seq (usage_table (db w))) ∧
  Z.of_nat (length (rows (usage_table (db w)))) = seq (usage_table (db w)) ∧
  (∀ n : Z,
     0 ≤ n < 2 ^ 63 → healthy 1 w →
     (get_conversation_messages n w).1 =
       Ok (dict_of_row <$> drop (length (rows (messages_table (db w))) - Z.to_nat n)
                                (rows (messages_table (db w))))).
Proof.
  intros Hw.
  assert (consecutive_ids (db w)) as (Hm & Hsm & Hu & Hsu).
  { apply (reachable_invariant consecutive_ids); [..|done].
    - intros. by apply consecutive_ids_add_row.
    - intros. by apply consecutive_ids_add_usage_row.
    - done. }
  assert (chronological (messages_table (db w))) as Hc.
  { apply (reachable_invariant (λ d, chronological (messages_table d))); [..|done].
    - intros. by apply chronological_add_row.
    - done.
    - apply fresh_chronological. }
  split; [done|]. split; [|split; [done|split]].
  - rewrite <-(length_fmap msg_id), Hm, length_seqZ. lia.
  - rewrite <-(length_fmap use_id), Hu, length_seqZ. lia.
  - intros n Hn H.
    rewrite get_conversation_messages_ok by (done || (apply fits_int64_range; lia)).
    by rewrite window_rows_chronological by (done || lia).
Qed.

Lemma reachable_store_is_consecutive_witness :
  reachable (chat (λ _ _, Ok (Completion "hello" 12 30)) {[ "user_input" := "hi" ]}
                  (fresh [])).2 ∧
  msg_id <$> [MessageRow 1 "user" "hi"; MessageRow 2 "assistant" "hello"] = seqZ 1 2 ∧
  Z.of_nat (length [MessageRow 1 "user" "hi"; MessageRow 2 "assistant" "hello"]) = 2 ∧
  (get_conversation_messages 1
     (chat (λ _ _, Ok (Completion "hello" 12 30)) {[ "user_input" := "hi" ]}
           (fresh [])).2).1 = Ok [Message "assistant" "hello"].
Proof.
  assert (reachable (chat (λ _ _, Ok (Completion "hello" 12 30)) {[ "user_input" := "hi" ]}
                          (fresh [])).2) as Hr.
  { eapply reachable_step; [apply (reachable_fresh [])|apply step_chat]. }
  destruct (reachable_store_is_consecutive _ Hr) as (Hm & Hlen & _ & _ & Hwin).
  split; [exact Hr|]. split; [exact Hm|]. split; [exact Hlen|].
  exact (Hwin 1 ltac:(lia) ltac:(constructor)).
Defined.
